(** * Move-relay service (server.js): prompt construction and reply parsing

    A shallow embedding of the [POST /ai-move] handler of [src/server.js]:
    JavaScript strings are sequences of UTF-16 code units, request and
    reply bodies are JSON values, the handler runs in a small monad that
    threads the log of outbound calls and propagates thrown exceptions to
    the handler's [try]/[catch]. *)

From Stdlib Require Import List NArith ZArith Bool String Ascii Lia.
From Stdlib Require Import DecimalString.
Import ListNotations.

Local Open Scope N_scope.

(** ** JavaScript strings *)

Module JsString.

(** A JavaScript string is a sequence of UTF-16 code units. *)
Definition jsstring := list N.

(** An ASCII literal of the source, as code units. *)
Definition lit (s : string) : jsstring :=
  map N_of_ascii (list_ascii_of_string s).

Definition eqb (a b : jsstring) : bool :=
  if list_eq_dec N.eq_dec a b then true else false.

Fixpoint prefixb (p s : jsstring) : bool :=
  match p, s with
  | [], _ => true
  | _ :: _, [] => false
  | a :: p', b :: s' => (a =? b) && prefixb p' s'
  end.

(** [String.prototype.includes]: does [p] occur in [s]? *)
Fixpoint includes (s p : jsstring) : bool :=
  prefixb p s ||
  match s with
  | [] => false
  | _ :: s' => includes s' p
  end.

(** [Array.prototype.join] on an array of strings. *)
Fixpoint join (sep : jsstring) (l : list jsstring) : jsstring :=
  match l with
  | [] => []
  | [x] => x
  | x :: rest => x ++ sep ++ join sep rest
  end.

(** WhiteSpace and LineTerminator code points, the ones
    [String.prototype.trim] strips. *)
Definition is_white_space (c : N) : bool :=
  ((9 <=? c) && (c <=? 13)) || (c =? 32) || (c =? 160) || (c =? 5760)
  || ((8192 <=? c) && (c <=? 8202)) || (c =? 8232) || (c =? 8233)
  || (c =? 8239) || (c =? 8287) || (c =? 12288) || (c =? 65279).

Fixpoint trimStart (s : jsstring) : jsstring :=
  match s with
  | c :: s' => if is_white_space c then trimStart s' else s
  | [] => []
  end.

Definition trimEnd (s : jsstring) : jsstring := rev (trimStart (rev s)).

(** [String.prototype.trim]. *)
Definition trim (s : jsstring) : jsstring := trimEnd (trimStart s).

(** [String.prototype.replace] with a one-character string pattern: only
    the first occurrence is replaced. *)
Fixpoint replace_first (c : N) (by_ : jsstring) (s : jsstring) : jsstring :=
  match s with
  | [] => []
  | d :: s' => if d =? c then by_ ++ s' else d :: replace_first c by_ s'
  end.

(** Number::toString of a non-negative integer index. *)
Definition of_nat (n : nat) : jsstring :=
  lit (NilEmpty.string_of_uint (Nat.to_uint n)).

(** Number::toString of an integer that a double holds exactly and prints
    in plain decimal notation (magnitude below 2^53). *)
Definition of_Z (z : Z) : jsstring :=
  match z with
  | Zneg p => 45 :: of_nat (Pos.to_nat p)
  | _ => of_nat (Z.to_nat z)
  end.

End JsString.
Import JsString.

(** ** JSON values, exceptions and completions *)

(** The values the handler works on: what [express.json()] and
    [Response.json()] produce, plus [undefined] for absent properties.
    Numbers are the integers of magnitude below 2^53 (no fractional part,
    no exponent: what a double holds and prints exactly); an object
    lists its own properties in property order, with distinct keys. *)
#[warnings="-register-all"]
Inductive value : Type :=
| VUndefined
| VNull
| VBool (b : bool)
| VNum (n : Z)
| VStr (s : jsstring)
| VArr (elems : list value)
| VObj (props : list (jsstring * value)).

(** A thrown exception; the handler only reads [err.message].  The texts
    of engine-raised TypeErrors are those of V8. *)
Inductive exn : Type :=
| TypeError (msg : jsstring)
| SyntaxError (msg : jsstring)
| FetchError (msg : jsstring).

Definition message (e : exn) : jsstring :=
  match e with
  | TypeError m | SyntaxError m | FetchError m => m
  end.

(** Normal or abrupt completion of an evaluation. *)
Inductive result (A : Type) : Type :=
| Ok (a : A)
| Throw (e : exn).
Arguments Ok {A} a.
Arguments Throw {A} e.

Definition rbind {A B} (r : result A) (f : A -> result B) : result B :=
  match r with
  | Ok a => f a
  | Throw e => Throw e
  end.

Declare Scope result_scope.
Delimit Scope result_scope with result.
Notation "x <- c ;; k" := (rbind c (fun x => k))
  (at level 61, c at next level, right associativity) : result_scope.

(** ToBoolean. *)
Definition truthy (v : value) : bool :=
  match v with
  | VUndefined | VNull => false
  | VBool b => b
  | VNum n => negb (n =? 0)%Z
  | VStr s => match s with [] => false | _ => true end
  | VArr _ | VObj _ => true
  end.

Definition is_nullish (v : value) : bool :=
  match v with
  | VUndefined | VNull => true
  | _ => false
  end.

(** Own-property lookup in an object. *)
Fixpoint lookup (k : jsstring) (props : list (jsstring * value)) : value :=
  match props with
  | [] => VUndefined
  | (k', v) :: rest => if eqb k k' then v else lookup k rest
  end.

Definition has_own (k : jsstring) (props : list (jsstring * value)) : bool :=
  existsb (fun kv => eqb k (fst kv)) props.

Definition type_name (v : value) : jsstring :=
  match v with
  | VNull => lit "null"
  | _ => lit "undefined"
  end.

(** [v.name] for a property name that no built-in prototype defines, which
    is the case of every name the handler reads ([fen], [history], [from],
    [to], [choices], [message], [content]). *)
Definition get (v : value) (name : jsstring) : result value :=
  match v with
  | VUndefined | VNull =>
      Throw (TypeError (lit "Cannot read properties of " ++ type_name v
                        ++ lit " (reading '" ++ name ++ lit "')"))
  | VObj props => Ok (lookup name props)
  | _ => Ok VUndefined
  end.

(** [v[0]]. *)
Definition get0 (v : value) : result value :=
  match v with
  | VUndefined | VNull =>
      Throw (TypeError (lit "Cannot read properties of " ++ type_name v
                        ++ lit " (reading '0')"))
  | VStr (c :: _) => Ok (VStr [c])
  | VArr (x :: _) => Ok x
  | VObj props => Ok (lookup (lit "0") props)
  | _ => Ok VUndefined
  end.

(** [a && b]: [b] is evaluated only when [a] is truthy. *)
Definition and_then (a b : result value) : result value :=
  (x <- a ;; if truthy x then b else Ok x)%result.

(** ToString, as a template literal applies it to a substitution. *)
Fixpoint ToString (v : value) : result jsstring :=
  match v with
  | VUndefined => Ok (lit "undefined")
  | VNull => Ok (lit "null")
  | VBool true => Ok (lit "true")
  | VBool false => Ok (lit "false")
  | VNum n => Ok (of_Z n)
  | VStr s => Ok s
  | VArr elems =>
      (* Array.prototype.toString is join(","): null and undefined
         elements give the empty string *)
      let element (x : value) : result jsstring :=
        if is_nullish x then Ok [] else ToString x in
      (fix join_elems (l : list value) : result jsstring :=
         match l with
         | [] => Ok []
         | [x] => element x
         | x :: rest =>
             (a <- element x ;; b <- join_elems rest ;;
              Ok (a ++ lit "," ++ b))%result
         end) elems
  | VObj props =>
      (* an own toString of a parsed object is never callable, and
         Object.prototype.valueOf gives back the object *)
      if has_own (lit "toString") props
      then Throw (TypeError (lit "Cannot convert object to primitive value"))
      else Ok (lit "[object Object]")
  end.

(** ** JSON.stringify *)

Definition hex_digit (n : N) : N := if n <? 10 then 48 + n else 87 + n.

(** UnicodeEscape: [\uXXXX] with lowercase hexadecimal digits. *)
Definition unicode_escape (c : N) : jsstring :=
  [92; 117; hex_digit (c / 4096 mod 16); hex_digit (c / 256 mod 16);
   hex_digit (c / 16 mod 16); hex_digit (c mod 16)].

Definition is_high_surrogate (c : N) : bool := (55296 <=? c) && (c <=? 56319).
Definition is_low_surrogate (c : N) : bool := (56320 <=? c) && (c <=? 57343).

(** The escape of one code point that is not a surrogate. *)
Definition quote_char (c : N) : jsstring :=
  if c =? 8 then [92; 98]
  else if c =? 9 then [92; 116]
  else if c =? 10 then [92; 110]
  else if c =? 12 then [92; 102]
  else if c =? 13 then [92; 114]
  else if c =? 34 then [92; 34]
  else if c =? 92 then [92; 92]
  else if c <? 32 then unicode_escape c
  else [c].

Fixpoint quote_body (s : jsstring) : jsstring :=
  match s with
  | [] => []
  | c :: s' =>
      if is_high_surrogate c then
        match s' with
        | d :: s'' =>
            if is_low_surrogate d then c :: d :: quote_body s''
            else unicode_escape c ++ quote_body s'
        | [] => unicode_escape c
        end
      else if is_low_surrogate c then unicode_escape c ++ quote_body s'
      else quote_char c ++ quote_body s'
  end.

(** QuoteJSONString. *)
Definition QuoteJSONString (s : jsstring) : jsstring :=
  [34] ++ quote_body s ++ [34].

(** [JSON.stringify(v)]; [None] is the result [undefined]. *)
Fixpoint JSON_stringify (v : value) : option jsstring :=
  match v with
  | VUndefined => None
  | VNull => Some (lit "null")
  | VBool true => Some (lit "true")
  | VBool false => Some (lit "false")
  | VNum n => Some (of_Z n)
  | VStr s => Some (QuoteJSONString s)
  | VArr elems =>
      let element (x : value) : jsstring :=
        match JSON_stringify x with Some s => s | None => lit "null" end in
      Some (lit "[" ++ join (lit ",") (map element elems) ++ lit "]")
  | VObj props =>
      let member (kv : jsstring * value) : list jsstring :=
        match JSON_stringify (snd kv) with
        | Some s => [QuoteJSONString (fst kv) ++ lit ":" ++ s]
        | None => []
        end in
      Some (lit "{" ++ join (lit ",") (flat_map member props) ++ lit "}")
  end.

(** A template-literal substitution [${JSON.stringify(v)}]. *)
Definition stringify_subst (v : value) : jsstring :=
  match JSON_stringify v with
  | Some s => s
  | None => lit "undefined"
  end.

(** ** Regular expressions

    The fragment of ECMAScript patterns that [moveMatcher] is written in,
    with the backtracking semantics of the language specification: a
    matcher takes the current end index and a continuation. *)

Module RegExp.

Inductive class_atom : Type :=
| Single (c : N)
| Range (lo hi : N).

Inductive pattern : Type :=
| WordBoundary                      (* \b *)
| CharClass (atoms : list class_atom) (* [...] *)
| Optional (p : pattern)            (* p? , greedy *)
| Seq (p q : pattern)
| Empty.

Record regexp : Type := { source : pattern; ignoreCase : bool }.

(** Canonicalize, without the [u] flag: a code unit is compared through
    its upper-case form, except that a code unit of 128 or more is never
    mapped below 128.  The upper-case form of a code unit of 128 or more is
    left as the code unit itself here: it stays at 128 or more in the
    language as well, so it compares equal to no ASCII member of a class. *)
Definition canonicalize (ignore_case : bool) (ch : N) : N :=
  if ignore_case && (97 <=? ch) && (ch <=? 122) then ch - 32 else ch.

Definition atom_chars (a : class_atom) : list N :=
  match a with
  | Single c => [c]
  | Range lo hi => map N.of_nat (seq (N.to_nat lo) (S (N.to_nat hi) - N.to_nat lo))
  end.

(** CharacterSetMatcher: some member of the class has the canonical form
    of the input character. *)
Definition class_matches (ic : bool) (atoms : list class_atom) (ch : N) : bool :=
  existsb (fun a => canonicalize ic a =? canonicalize ic ch)
          (flat_map atom_chars atoms).

(** The basic word characters [A-Za-z0-9_]. *)
Definition is_word_char (c : N) : bool :=
  ((97 <=? c) && (c <=? 122)) || ((65 <=? c) && (c <=? 90))
  || ((48 <=? c) && (c <=? 57)) || (c =? 95).

(** IsWordChar(e) for [e] an index of the input; false past its end. *)
Definition word_at (input : jsstring) (e : nat) : bool :=
  match nth_error input e with
  | Some c => is_word_char c
  | None => false
  end.

(** IsWordChar(e - 1); false before the start of the input. *)
Definition word_before (input : jsstring) (e : nat) : bool :=
  match e with
  | O => false
  | S e' => word_at input e'
  end.

(** The matcher of a pattern: from end index [x], continue with [k]. *)
Fixpoint matcher (ic : bool) (p : pattern) (input : jsstring) (x : nat)
    (k : nat -> option nat) : option nat :=
  match p with
  | WordBoundary =>
      if xorb (word_before input x) (word_at input x) then k x else None
  | CharClass atoms =>
      match nth_error input x with
      | Some ch => if class_matches ic atoms ch then k (S x) else None
      | None => None
      end
  | Optional q =>
      match matcher ic q input x
              (fun y => if Nat.eqb y x then None else k y) with
      | Some e => Some e
      | None => k x
      end
  | Seq q r => matcher ic q input x (fun y => matcher ic r input y k)
  | Empty => k x
  end.

(** The loop of RegExpBuiltinExec for a pattern that is neither global nor
    sticky: the match is tried at each index from 0 to the length. *)
Fixpoint exec_from (r : regexp) (input : jsstring) (tries : nat) (i : nat)
    : option (nat * nat) :=
  match tries with
  | O => None
  | S tries' =>
      match matcher (ignoreCase r) (source r) input i Some with
      | Some e => Some (i, e)
      | None => exec_from r input tries' (S i)
      end
  end.

Definition exec (r : regexp) (input : jsstring) : option (nat * nat) :=
  exec_from r input (S (List.length input)) 0.

Definition substring (s : jsstring) (i e : nat) : jsstring :=
  firstn (e - i) (skipn i s).

(** [s.match(r)[0]], or [None] when [s.match(r)] is [null]. *)
Definition match0 (s : jsstring) (r : regexp) : option jsstring :=
  match exec r s with
  | Some (i, e) => Some (substring s i e)
  | None => None
  end.

End RegExp.
Import RegExp.

(** [/\b[a-h][1-8][a-h][1-8][qrbn]?\b/i] *)
Definition moveMatcher : regexp :=
  {| source :=
       Seq WordBoundary
      (Seq (CharClass [Range 97 104])
      (Seq (CharClass [Range 49 56])
      (Seq (CharClass [Range 97 104])
      (Seq (CharClass [Range 49 56])
      (Seq (Optional (CharClass [Single 113; Single 114; Single 98; Single 110]))
           WordBoundary)))));
     ignoreCase := true |}.

(** ** The handler's world: configuration, upstream, effects *)

(** [process.env], read at start-up. *)
Record env : Type := {
  OPENAI_API_KEY : option jsstring;
  GPT_MODEL : option jsstring
}.

(** The arguments of one [fetch] call. *)
Record request : Type := {
  url : jsstring;
  method : jsstring;
  headers : list (jsstring * jsstring);
  body : option jsstring
}.

(** What the handler observes of the upstream [Response]: [text] and
    [json] are the completions of [await r.text()] and [await r.json()]. *)
Record Response : Type := {
  status : Z;
  statusText : jsstring;
  text : result jsstring;
  json : result value
}.

(** [r.ok]: the status is in the range 200 to 299. *)
Definition ok (r : Response) : bool :=
  ((200 <=? status r) && (status r <=? 299))%Z.

(** The upstream API, as a stub: the completion of [await fetch(...)]. *)
Definition upstream : Type := request -> result Response.

(** What the handler sends to the client. *)
Inductive payload : Type :=
| Text (s : jsstring)      (* res.send(s) *)
| Json (v : value).        (* res.json(v) *)

Record http_response : Type := { code : Z; sent : payload }.

(** Computations of the handler: they may throw, and they extend the log
    of outbound calls. *)
Definition M (A : Type) : Type := list request -> result A * list request.

Definition ret {A} (a : A) : M A := fun calls => (Ok a, calls).

Definition bind {A B} (m : M A) (f : A -> M B) : M B :=
  fun calls =>
    match m calls with
    | (Ok a, calls') => f a calls'
    | (Throw e, calls') => (Throw e, calls')
    end.

Definition lift {A} (r : result A) : M A := fun calls => (r, calls).

(** [await fetch(url, init)] against the upstream [up]. *)
Definition fetch (up : upstream) (rq : request) : M Response :=
  fun calls => (up rq, calls ++ [rq]).

(** [try { m } catch (err) { h err }]. *)
Definition try_catch {A} (m : M A) (h : exn -> A) : list request -> A * list request :=
  fun calls =>
    match m calls with
    | (Ok a, calls') => (a, calls')
    | (Throw e, calls') => (h e, calls')
    end.

Declare Scope handler_scope.
Delimit Scope handler_scope with handler.
Notation "x <- c ;; k" := (bind c (fun x => k))
  (at level 61, c at next level, right associativity) : handler_scope.

(** ** Prompt construction *)

(** A property of a value that is neither [null] nor [undefined]. *)
Definition prop (v : value) (name : jsstring) : value :=
  match v with
  | VObj props => lookup name props
  | _ => VUndefined
  end.

Definition cannot_destructure (name what : jsstring) (v : value) : exn :=
  TypeError (lit "Cannot destructure property '" ++ name ++ lit "' of '" ++ what
             ++ lit "' as it is " ++ type_name v ++ lit ".").

(** The callback of [history.map]:
    [({from, to}, i) => `${i+1}. ${from}-${to}`]. *)
Definition history_entry (elem : value) (i : nat) : result jsstring :=
  if is_nullish elem
  then Throw (cannot_destructure (lit "from")
                (match elem with
                 | VNull => lit "object null"
                 | _ => lit "undefined"
                 end) elem)
  else
    let from := prop elem (lit "from") in
    let to := prop elem (lit "to") in
    (sfrom <- ToString from ;; sto <- ToString to ;;
     Ok (of_nat (i + 1) ++ lit ". " ++ sfrom ++ lit "-" ++ sto))%result.

(** [Array.prototype.map] with a callback that may throw. *)
Fixpoint map_indexed (f : value -> nat -> result jsstring) (l : list value)
    (i : nat) : result (list jsstring) :=
  match l with
  | [] => Ok []
  | x :: rest =>
      (y <- f x i ;; ys <- map_indexed f rest (S i) ;; Ok (y :: ys))%result
  end.

(** [history.map(...)]: only an array has a [map] method. *)
Definition history_map (history : value) : result (list jsstring) :=
  match history with
  | VArr elems => map_indexed history_entry elems 0
  | VUndefined | VNull =>
      Throw (TypeError (lit "Cannot read properties of " ++ type_name history
                        ++ lit " (reading 'map')"))
  | _ => Throw (TypeError (lit "history.map is not a function"))
  end.

(** The system instruction. *)
Definition system : jsstring :=
  lit "You are a chess move generator. You MUST respond with exactly one move in UCI format (e.g. e2e4, g1f3, e7e8q for promotion) and nothing else. Do NOT include commentary, explanation, JSON, or any extra text. If you cannot find a legal move, respond with PASS. Use standard algebraic coordinates: a1..h8. Assume position FEN provided is to move. Use reasonable chess knowledge but do not invent illegal moves. Avoid castling if unclear.".

Definition user_prefix : jsstring := lit "FEN: Move history: ".
Definition user_suffix : jsstring := [10] ++ lit "Respond with one UCI move only.".

(** The user instruction:
    [`FEN: Move history: ${JSON.stringify(history.map(...))}\nRespond with one UCI move only.`].
    [fen] is in scope where the template is evaluated; the template has no
    substitution for it. *)
Definition user (fen history : value) : result jsstring :=
  (entries <- history_map history ;;
   Ok (user_prefix ++ stringify_subst (VArr (map VStr entries)) ++ user_suffix))%result.

(** [process.env.GPT_MODEL || "gpt-4o-mini"] *)
Definition model (e : env) : jsstring :=
  match GPT_MODEL e with
  | Some (c :: m) => c :: m
  | _ => lit "gpt-4o-mini"
  end.

(** [`Bearer ${OPENAI_KEY}`] *)
Definition authorization (e : env) : jsstring :=
  lit "Bearer " ++
  match OPENAI_API_KEY e with
  | Some k => k
  | None => lit "undefined"
  end.

(** The outbound call of the handler. *)
Definition completion_request (e : env) (user_text : jsstring) : request :=
  {| url := lit "https://api.openai.com/v1/chat/completions";
     method := lit "POST";
     headers := [(lit "Content-Type", lit "application/json");
                 (lit "Authorization", authorization e)];
     body := JSON_stringify
       (VObj [(lit "model", VStr (model e));
              (lit "messages",
               VArr [VObj [(lit "role", VStr (lit "system"));
                           (lit "content", VStr system)];
                     VObj [(lit "role", VStr (lit "user"));
                           (lit "content", VStr user_text)]])]) |}.

(** ** Reply parsing *)

(** [j.choices && j.choices[0] && j.choices[0].message
      && j.choices[0].message.content] *)
Definition reply_of (j : value) : result value :=
  let choices := get j (lit "choices") in
  let choices0 := (c <- choices ;; get0 c)%result in
  let message_ := (c0 <- choices0 ;; get c0 (lit "message"))%result in
  let content := (m <- message_ ;; get m (lit "content"))%result in
  and_then (and_then (and_then choices choices0) message_) content.

(** [reply.trim()]: only a string has a [trim] method. *)
Definition reply_trim (reply : value) : result jsstring :=
  match reply with
  | VStr s => Ok (trim s)
  | VUndefined | VNull =>
      Throw (TypeError (lit "Cannot read properties of " ++ type_name reply
                        ++ lit " (reading 'trim')"))
  | _ => Throw (TypeError (lit "reply.trim is not a function"))
  end.

(** [m ? m[0].replace("-", "") : null] for [m = reply.trim().match(moveMatcher)]. *)
Definition extract_move (trimmed : jsstring) : value :=
  match match0 trimmed moveMatcher with
  | Some m0 => VStr (replace_first 45 [] m0)
  | None => VNull
  end.

(** ** The handler of [POST /ai-move] *)

Definition send (c : Z) (s : jsstring) : http_response :=
  {| code := c; sent := Text s |}.

Definition send_json (v : value) : http_response :=
  {| code := 200; sent := Json v |}.

(** [const { fen, history } = req.body] *)
Definition destructure_body (req_body : value) : result (value * value) :=
  if is_nullish req_body
  then Throw (cannot_destructure (lit "fen") (lit "req.body") req_body)
  else Ok (prop req_body (lit "fen"), prop req_body (lit "history")).

Definition ai_move_try (e : env) (up : upstream) (req_body : value)
    : M http_response :=
  (fh <- lift (destructure_body req_body) ;;
   let fen := fst fh in
   let history := snd fh in
   if negb (truthy fen) then ret (send 400 (lit "Missing next move")) else
   user_text <- lift (user fen history) ;;
   r <- fetch up (completion_request e user_text) ;;
   if negb (ok r) then
     txt <- lift (text r) ;;
     ret (send 500 (lit "OpenAI API error: " ++ txt))
   else
   j <- lift (json r) ;;
   reply <- lift (reply_of j) ;;
   if negb (truthy reply) then ret (send 500 (lit "Empty reply from OpenAI")) else
   trimmed <- lift (reply_trim reply) ;;
   let move := extract_move trimmed in
   if negb (truthy move)
   then ret (send_json (VObj [(lit "move", VNull); (lit "raw", reply)]))
   else ret (send_json (VObj [(lit "move", move)])))%handler.

(** The whole handler, with its [catch]: the response and the outbound
    calls made while serving the request. *)
Definition ai_move (e : env) (up : upstream) (req_body : value)
    : http_response * list request :=
  try_catch (ai_move_try e up req_body) (fun err => send 500 (message err)) [].

(** Console output ([console.log], [console.warn], [console.error]) is not
    part of the model: these calls cannot throw on the values they are
    given here, and neither the response nor the outbound call reads them. *)

(** ** The move pattern, as the specification words it

    Two file-rank coordinate pairs, file in [a]-[h] and rank in [1]-[8],
    optionally followed by one promotion letter of [q], [r], [b], [n];
    letters in either case. *)

Definition is_file (c : N) : bool :=
  ((97 <=? c) && (c <=? 104)) || ((65 <=? c) && (c <=? 72)).

Definition is_rank (c : N) : bool := (49 <=? c) && (c <=? 56).

Definition is_promotion (c : N) : bool :=
  (c =? 113) || (c =? 114) || (c =? 98) || (c =? 110)
  || (c =? 81) || (c =? 82) || (c =? 66) || (c =? 78).

Definition is_move_token (m : jsstring) : bool :=
  match m with
  | [f1; r1; f2; r2] => is_file f1 && is_rank r1 && is_file f2 && is_rank r2
  | [f1; r1; f2; r2; p] =>
      is_file f1 && is_rank r1 && is_file f2 && is_rank r2 && is_promotion p
  | _ => false
  end.

(** [m] occurs in [s] between word boundaries, with [pre] before it. *)
Definition delimited_at (s pre m : jsstring) : Prop :=
  exists post, s = pre ++ m ++ post
    /\ word_before s (List.length pre) = false
    /\ word_at s (List.length pre + List.length m) = false.

(** The outcome of [moveMatcher]'s matcher at index [i], read off the
    rest of the input from [i] on; [before] tells whether the character
    before [i] is a word character. *)
Definition token_end (before : bool) (rest : jsstring) (i : nat) : option nat :=
  match rest with
  | f1 :: r1 :: f2 :: r2 :: tail =>
      if negb before && is_file f1 && is_rank r1 && is_file f2 && is_rank r2
      then match tail with
           | [] => Some (i + 4)%nat
           | p :: tail' =>
               if is_promotion p
               then match tail' with
                    | [] => Some (i + 5)%nat
                    | c :: _ => if is_word_char c then None else Some (i + 5)%nat
                    end
               else if is_word_char p then None else Some (i + 4)%nat
           end
      else None
  | _ => None
  end.

(** The text after a match starts with no word character. *)
Definition ends_word (post : jsstring) : bool :=
  match post with
  | [] => true
  | c :: _ => negb (is_word_char c)
  end.

(** ** The history enumeration, as the specification words it *)

(** [elem] is a [{from, to}] pair of strings. *)
Definition is_pair (elem : value) (from to : jsstring) : Prop :=
  exists props, elem = VObj props
    /\ lookup (lit "from") props = VStr from
    /\ lookup (lit "to") props = VStr to.

(** The entry ["<i+1>. <from>-<to>"] of the ply at index [i]. *)
Definition enumerated_entry (i : nat) (from to : jsstring) : jsstring :=
  of_nat (i + 1) ++ lit ". " ++ from ++ lit "-" ++ to.

(** ** The missing text payload, as the specification words it

    [choices], its first entry, that entry's [message] or the message's
    [content] is missing, or the content is the empty string. *)
Inductive no_text_payload : value -> Prop :=
| missing_choices props :
    lookup (lit "choices") props = VUndefined ->
    no_text_payload (VObj props)
| missing_first_choice props :
    lookup (lit "choices") props = VArr [] ->
    no_text_payload (VObj props)
| missing_message props cprops rest :
    lookup (lit "choices") props = VArr (VObj cprops :: rest) ->
    lookup (lit "message") cprops = VUndefined ->
    no_text_payload (VObj props)
| missing_content props cprops rest mprops :
    lookup (lit "choices") props = VArr (VObj cprops :: rest) ->
    lookup (lit "message") cprops = VObj mprops ->
    lookup (lit "content") mprops = VUndefined ->
    no_text_payload (VObj props)
| empty_content props cprops rest mprops :
    lookup (lit "choices") props = VArr (VObj cprops :: rest) ->
    lookup (lit "message") cprops = VObj mprops ->
    lookup (lit "content") mprops = VStr [] ->
    no_text_payload (VObj props).

(** Some index below [n] starts a move token between word boundaries. *)
Fixpoint token_before (s : jsstring) (n : nat) : bool :=
  match n with
  | O => false
  | S n' =>
      match token_end (word_before s n') (skipn n' s) n' with
      | Some _ => true
      | None => token_before s n'
      end
  end.

(** Some segment of [s] is a move token, word boundaries or not. *)
Fixpoint has_token_segment (s : jsstring) : bool :=
  is_move_token (firstn 4 s) || is_move_token (firstn 5 s) ||
  match s with
  | [] => false
  | _ :: s' => has_token_segment s'
  end.

(** ** Sample requests and upstream stubs *)

Module Sample.

Definition environment : env :=
  {| OPENAI_API_KEY := Some (lit "sk-test"); GPT_MODEL := None |}.

Definition fen_start : jsstring :=
  lit "rnbqkbnr/pppppppp/8/8/8/8/PPPPPPPP/RNBQKBNR w KQkq - 0 1".

Definition pair (from to : jsstring) : value :=
  VObj [(lit "from", VStr from); (lit "to", VStr to)].

(** [{ fen, history }] *)
Definition request_body (fen : jsstring) (history : value) : value :=
  VObj [(lit "fen", VStr fen); (lit "history", history)].

(** A chat-completion body whose first choice carries [content]. *)
Definition completion (content : value) : value :=
  VObj [(lit "id", VStr (lit "chatcmpl-1"));
        (lit "choices",
         VArr [VObj [(lit "index", VNum 0);
                     (lit "message",
                      VObj [(lit "role", VStr (lit "assistant"));
                            (lit "content", content)])]])].

(** An upstream that answers every call with status 200 and [j]. *)
Definition replying (j : value) : upstream :=
  fun _ => Ok {| status := 200; statusText := lit "OK";
                 text := Ok (stringify_subst j); json := Ok j |}.

(** An upstream that answers every call with an error status. *)
Definition failing (st : Z) (reason txt : jsstring) (j : value) : upstream :=
  fun _ => Ok {| status := st; statusText := reason; text := Ok txt;
                 json := Ok j |}.

(** "Sure — e7-e8Q", with its em dash. *)
Definition hyphenated_reply : jsstring := lit "Sure " ++ [8212] ++ lit " e7-e8Q".

(** "Sure — e7e8Q" *)
Definition compact_reply : jsstring := lit "Sure " ++ [8212] ++ lit " e7e8Q".

End Sample.

(** ** Start-up *)

(** [if (!OPENAI_KEY) { console.warn(...) }]: what loading the module
    writes with [console.warn]. *)
Definition startup_warnings (e : env) : list jsstring :=
  match OPENAI_API_KEY e with
  | Some (_ :: _) => []
  | _ => [lit "OPENAI_API_KEY not set. Set environment variable before running the server."]
  end.

(** The values that ToString renders without calling a method. *)
Definition is_primitive (v : value) : bool :=
  match v with
  | VArr _ | VObj _ => false
  | _ => true
  end.

(** * Properties *)

(** ** Strings *)

Lemma eqb_eq (a b : jsstring) : eqb a b = true <-> a = b.
Proof.
  unfold eqb. destruct (list_eq_dec N.eq_dec a b); split; congruence.
Qed.

Lemma prefixb_app (p s : jsstring) : prefixb p (p ++ s) = true.
Proof.
  induction p as [|a p IH]; simpl; [reflexivity|].
  now rewrite N.eqb_refl, IH.
Qed.

Lemma prefixb_spec (p s : jsstring) :
  prefixb p s = true -> exists post, s = p ++ post.
Proof.
  revert s. induction p as [|a p IH]; intros s H; simpl in H.
  - now exists s.
  - destruct s as [|b s]; [discriminate|].
    apply andb_true_iff in H as [Hab Hp]. apply N.eqb_eq in Hab. subst b.
    destruct (IH _ Hp) as [post ->]. now exists post.
Qed.

Lemma includes_spec (s p : jsstring) :
  includes s p = true <-> exists pre post, s = pre ++ p ++ post.
Proof.
  split.
  - induction s as [|c s IH]; simpl; intros H.
    + rewrite orb_false_r in H. apply prefixb_spec in H as [post ->].
      now exists [], post.
    + apply orb_true_iff in H as [H|H].
      * apply prefixb_spec in H as [post ->]. now exists [], post.
      * destruct (IH H) as (pre & post & ->). now exists (c :: pre), post.
  - intros (pre & post & ->). induction pre as [|c pre IH]; simpl.
    + pose proof (prefixb_app p post) as H.
      destruct (p ++ post); simpl; now rewrite H.
    + rewrite IH. apply orb_true_r.
Qed.

Lemma trimStart_suffix (s : jsstring) : exists pre, s = pre ++ trimStart s.
Proof.
  induction s as [|c s [pre IH]]; simpl.
  - now exists [].
  - destruct (is_white_space c).
    + exists (c :: pre). simpl. now f_equal.
    + now exists [].
Qed.

(** The trimmed string is a segment of the string. *)
Lemma trim_segment (s : jsstring) : exists pre post, s = pre ++ trim s ++ post.
Proof.
  unfold trim, trimEnd.
  destruct (trimStart_suffix s) as [pre Hpre].
  destruct (trimStart_suffix (rev (trimStart s))) as [post Hpost].
  exists pre, (rev post).
  rewrite <- rev_app_distr, <- Hpost, rev_involutive. exact Hpre.
Qed.

Lemma replace_first_absent (c : N) (b s : jsstring) :
  ~ In c s -> replace_first c b s = s.
Proof.
  induction s as [|d s IH]; simpl; intros H; [reflexivity|].
  destruct (N.eqb_spec d c) as [->|_].
  - exfalso. apply H. now left.
  - f_equal. apply IH. intros Hin. apply H. now right.
Qed.

(** ** The character classes of [moveMatcher] *)

Ltac bool_prop :=
  repeat rewrite ?orb_true_iff, ?andb_true_iff, ?orb_false_iff,
    ?andb_false_iff, ?N.eqb_eq, ?N.eqb_neq, ?N.leb_le, ?N.leb_gt,
    ?N.ltb_lt, ?N.ltb_ge in *.

Lemma canonicalize_cases (c : N) :
  (97 <= c <= 122 /\ canonicalize true c = c - 32)
  \/ (~ 97 <= c <= 122 /\ canonicalize true c = c).
Proof.
  unfold canonicalize. simpl.
  destruct ((97 <=? c) && (c <=? 122)) eqn:E; bool_prop; [left|right];
    split; trivial; lia.
Qed.

Ltac canon_consts :=
  repeat match goal with
  | |- context [canonicalize true (Npos ?p)] =>
      let v := eval vm_compute in (canonicalize true (Npos p)) in
      change (canonicalize true (Npos p)) with v
  end.

Ltac class_solve c chars :=
  apply eq_true_iff_eq;
  unfold class_matches;
  match goal with
  | |- context [flat_map atom_chars ?a] => change (flat_map atom_chars a) with chars
  end;
  cbv [existsb]; canon_consts;
  destruct (canonicalize_cases c) as [[Hc ->]|[Hc ->]];
  bool_prop; lia.

Lemma class_file (c : N) : class_matches true [Range 97 104] c = is_file c.
Proof.
  unfold is_file. class_solve c [97; 98; 99; 100; 101; 102; 103; 104].
Qed.

Lemma class_rank (c : N) : class_matches true [Range 49 56] c = is_rank c.
Proof.
  unfold is_rank. class_solve c [49; 50; 51; 52; 53; 54; 55; 56].
Qed.

Lemma class_promotion (c : N) :
  class_matches true [Single 113; Single 114; Single 98; Single 110] c
  = is_promotion c.
Proof.
  unfold is_promotion. class_solve c [113; 114; 98; 110].
Qed.

Lemma is_file_word (c : N) : is_file c = true -> is_word_char c = true.
Proof. unfold is_file, is_word_char. bool_prop. lia. Qed.

Lemma is_rank_word (c : N) : is_rank c = true -> is_word_char c = true.
Proof. unfold is_rank, is_word_char. bool_prop. lia. Qed.

Lemma is_promotion_word (c : N) : is_promotion c = true -> is_word_char c = true.
Proof. unfold is_promotion, is_word_char. bool_prop. lia. Qed.

(** ** The matcher of [moveMatcher] at one index *)

Lemma word_at_skipn (input : jsstring) (i k : nat) :
  word_at input (i + k) = word_at (skipn i input) k.
Proof. unfold word_at. now rewrite nth_error_skipn. Qed.

Ltac split_class :=
  repeat match goal with
  | |- context [is_file ?c] =>
      let E := fresh in
      destruct (is_file c) eqn:E;
      [apply is_file_word in E; rewrite ?E|]; cbn [xorb negb andb]
  | |- context [is_rank ?c] =>
      let E := fresh in
      destruct (is_rank c) eqn:E;
      [apply is_rank_word in E; rewrite ?E|]; cbn [xorb negb andb]
  | |- context [is_promotion ?c] =>
      let E := fresh in
      destruct (is_promotion c) eqn:E;
      [apply is_promotion_word in E; rewrite ?E|]; cbn [xorb negb andb]
  | |- context [is_word_char ?c] =>
      destruct (is_word_char c); cbn [xorb negb andb]
  end.

Lemma matcher_at (input : jsstring) (i : nat) :
  matcher true (source moveMatcher) input i Some
  = token_end (word_before input i) (skipn i input) i.
Proof.
  cbn [matcher source moveMatcher ignoreCase].
  replace (Nat.eqb (S (S (S (S (S i))))) (S (S (S (S i))))) with false
    by (symmetry; apply Nat.eqb_neq; lia).
  cbn [word_before].
  change (S (S (S (S (S i))))) with (5 + i)%nat.
  change (S (S (S (S i)))) with (4 + i)%nat.
  change (S (S (S i))) with (3 + i)%nat.
  change (S (S i)) with (2 + i)%nat.
  change (S i) with (1 + i)%nat.
  rewrite !(Nat.add_comm _ i).
  rewrite <- !nth_error_skipn, !word_at_skipn.
  replace (nth_error input i) with (nth_error (skipn i input) 0)
    by (now rewrite nth_error_skipn, Nat.add_0_r).
  replace (word_at input i) with (word_at (skipn i input) 0)
    by (now rewrite <- word_at_skipn, Nat.add_0_r).
  unfold token_end, word_at.
  destruct (skipn i input) as [|f1 [|r1 [|f2 [|r2 [|p [|c tl]]]]]];
    cbn [nth_error];
    rewrite ?class_file, ?class_rank, ?class_promotion;
    destruct (word_before input i); cbn [xorb negb andb]; try reflexivity;
    split_class; reflexivity.
Qed.

Lemma token_end_sound (before : bool) (rest : jsstring) (i e : nat) :
  token_end before rest i = Some e ->
  exists m post, rest = m ++ post /\ is_move_token m = true
    /\ e = (i + List.length m)%nat /\ before = false /\ ends_word post = true.
Proof.
  unfold token_end.
  destruct rest as [|f1 [|r1 [|f2 [|r2 tail]]]]; try discriminate.
  destruct (negb before && is_file f1 && is_rank r1 && is_file f2 && is_rank r2)
    eqn:E; [|discriminate].
  rewrite !andb_true_iff, negb_true_iff in E.
  assert (Hb : before = false) by tauto.
  assert (Hm : is_move_token [f1; r1; f2; r2] = true).
  { cbn. rewrite !andb_true_iff. tauto. }
  destruct tail as [|p tail'].
  - intros [= <-]. exists [f1; r1; f2; r2], []. repeat split; auto.
  - destruct (is_promotion p) eqn:P.
    + assert (Hm5 : is_move_token [f1; r1; f2; r2; p] = true).
      { cbn in *. now rewrite Hm, P. }
      destruct tail' as [|c tl].
      * intros [= <-]. exists [f1; r1; f2; r2; p], []. repeat split; auto.
      * destruct (is_word_char c) eqn:W; [discriminate|].
        intros [= <-]. exists [f1; r1; f2; r2; p], (c :: tl).
        cbn. rewrite W. repeat split; auto.
    + destruct (is_word_char p) eqn:W; [discriminate|].
      intros [= <-]. exists [f1; r1; f2; r2], (p :: tail').
      cbn. rewrite W. repeat split; auto.
Qed.

Lemma token_end_complete (m post : jsstring) (i : nat) :
  is_move_token m = true -> ends_word post = true ->
  token_end false (m ++ post) i = Some (i + List.length m)%nat.
Proof.
  intros Hm Hp.
  destruct m as [|f1 [|r1 [|f2 [|r2 [|p [|x m]]]]]]; try discriminate.
  - cbn in Hm. cbn [app token_end negb andb List.length]. rewrite Hm.
    destruct post as [|c post]; [reflexivity|].
    cbn in Hp. apply negb_true_iff in Hp. rewrite Hp.
    destruct (is_promotion c) eqn:P; [|reflexivity].
    apply is_promotion_word in P. congruence.
  - cbn in Hm. apply andb_true_iff in Hm as [Hm P].
    cbn [app token_end negb andb List.length]. rewrite Hm, P.
    destruct post as [|c post]; [reflexivity|].
    cbn in Hp. apply negb_true_iff in Hp. now rewrite Hp.
Qed.

(** ** The search loop *)

Section Exec.
Variable r : regexp.
Variable input : jsstring.

Local Abbreviation at_ i := (matcher (ignoreCase r) (source r) input i Some).

Lemma exec_from_some (t i s e : nat) :
  exec_from r input t i = Some (s, e) ->
  (i <= s < i + t)%nat /\ at_ s = Some e
  /\ forall j, (i <= j < s)%nat -> at_ j = None.
Proof.
  revert i. induction t as [|t IH]; intros i; cbn [exec_from]; [discriminate|].
  destruct (matcher (ignoreCase r) (source r) input i Some) as [e'|] eqn:E.
  - intros [= <- <-]. repeat split; try lia. exact E.
  - intros H. destruct (IH _ H) as (Hr & Hs & Hn).
    repeat split; try lia; trivial.
    intros j Hj. destruct (Nat.eq_dec j i) as [->|Hne]; [exact E|].
    apply Hn. lia.
Qed.

Lemma exec_from_first (t i s e : nat) :
  (i <= s < i + t)%nat -> at_ s = Some e ->
  (forall j, (i <= j < s)%nat -> at_ j = None) ->
  exec_from r input t i = Some (s, e).
Proof.
  revert i. induction t as [|t IH]; intros i Hr Hs Hn; [lia|].
  cbn [exec_from]. destruct (Nat.eq_dec s i) as [->|Hne].
  - now rewrite Hs.
  - assert (E : at_ i = None) by (apply Hn; lia).
    rewrite E. apply IH; trivial; [lia|].
    intros j Hj. apply Hn. lia.
Qed.

Lemma exec_from_none (t i : nat) :
  exec_from r input t i = None <->
  forall j, (i <= j < i + t)%nat -> at_ j = None.
Proof.
  revert i. induction t as [|t IH]; intros i; cbn [exec_from].
  - split; [intros _ j Hj; lia|reflexivity].
  - destruct (matcher (ignoreCase r) (source r) input i Some) as [e'|] eqn:E.
    + split; [discriminate|]. intros H.
      assert (E' : at_ i = None) by (apply H; lia).
      congruence.
    + rewrite IH. split; intros H j Hj.
      * destruct (Nat.eq_dec j i) as [->|Hne]; [exact E|]. apply H. lia.
      * apply H. lia.
Qed.
End Exec.

(** ** Occurrences between word boundaries *)

Lemma word_at_app (pre rest : jsstring) (k : nat) :
  word_at (pre ++ rest) (List.length pre + k) = word_at rest k.
Proof.
  unfold word_at. rewrite nth_error_app2 by lia.
  now replace (List.length pre + k - List.length pre)%nat with k by lia.
Qed.

Lemma word_at_end (m post : jsstring) :
  word_at (m ++ post) (List.length m) = negb (ends_word post).
Proof.
  rewrite <- (Nat.add_0_r (List.length m)), word_at_app.
  destruct post; cbn; [reflexivity|]. now rewrite negb_involutive.
Qed.

Lemma skipn_length_app (pre rest : jsstring) :
  skipn (List.length pre) (pre ++ rest) = rest.
Proof.
  rewrite skipn_app, skipn_all, Nat.sub_diag. reflexivity.
Qed.

Lemma substring_app (pre m post : jsstring) :
  substring (pre ++ m ++ post) (List.length pre) (List.length pre + List.length m) = m.
Proof.
  unfold substring. rewrite skipn_length_app.
  replace (List.length pre + List.length m - List.length pre)%nat
    with (List.length m) by lia.
  rewrite firstn_app, firstn_all, Nat.sub_diag. cbn. apply app_nil_r.
Qed.

Lemma token_end_delimited (s : jsstring) (i e : nat) :
  token_end (word_before s i) (skipn i s) i = Some e ->
  exists pre m, List.length pre = i /\ e = (i + List.length m)%nat
    /\ is_move_token m = true /\ delimited_at s pre m.
Proof.
  intros H. apply token_end_sound in H as (m & post & Hs & Hm & -> & Hb & Hp).
  assert (Hi : (i <= List.length s)%nat).
  { destruct (Nat.le_gt_cases i (List.length s)) as [|Hgt]; trivial.
    rewrite skipn_all2 in Hs by lia.
    destruct m; [discriminate Hm|discriminate Hs]. }
  assert (Hl : List.length (firstn i s) = i) by (apply firstn_length_le; exact Hi).
  assert (Es : s = firstn i s ++ m ++ post).
  { rewrite <- Hs. symmetry. apply firstn_skipn. }
  remember (firstn i s) as pre eqn:Hpre. clear Hpre Hs Hi. subst i.
  exists pre, m. repeat split; trivial.
  exists post. repeat split; trivial.
  rewrite Es, word_at_app, word_at_end, Hp. reflexivity.
Qed.

Lemma delimited_token_end (s pre m : jsstring) :
  is_move_token m = true -> delimited_at s pre m ->
  token_end (word_before s (List.length pre)) (skipn (List.length pre) s)
    (List.length pre)
  = Some (List.length pre + List.length m)%nat.
Proof.
  intros Hm (post & Es & Hb & Ha).
  rewrite Hb. rewrite Es at 1. rewrite skipn_length_app.
  apply token_end_complete; trivial.
  rewrite Es in Ha. rewrite word_at_app, word_at_end in Ha.
  now apply negb_false_iff in Ha.
Qed.

(** [s.match(moveMatcher)] finds a move token between word boundaries, and
    no such token starts earlier in [s]. *)
Lemma match0_sound (s m0 : jsstring) :
  match0 s moveMatcher = Some m0 ->
  is_move_token m0 = true
  /\ exists pre, delimited_at s pre m0
     /\ forall pre' m', (List.length pre' < List.length pre)%nat ->
          is_move_token m' = true -> ~ delimited_at s pre' m'.
Proof.
  unfold match0, exec.
  destruct (exec_from moveMatcher s (S (List.length s)) 0) as [[i e]|] eqn:E;
    [|discriminate].
  intros [= <-].
  apply exec_from_some in E as (_ & Hat & Hnone).
  cbn [ignoreCase moveMatcher] in Hat, Hnone. fold moveMatcher in Hat, Hnone.
  rewrite matcher_at in Hat.
  apply token_end_delimited in Hat as (pre & m & Hl & -> & Hm & Hd).
  assert (Hsub : substring s i (i + List.length m) = m).
  { destruct Hd as (post & -> & _). rewrite <- Hl. apply substring_app. }
  rewrite Hsub. split; [exact Hm|].
  exists pre. split; [exact Hd|].
  intros pre' m' Hlt Hm' Hd'.
  specialize (Hnone (List.length pre')).
  rewrite matcher_at, (delimited_token_end _ _ _ Hm' Hd') in Hnone.
  assert (Some (List.length pre' + List.length m')%nat = None)
    by (apply Hnone; lia).
  discriminate.
Qed.

(** The first move token between word boundaries is what
    [s.match(moveMatcher)] returns. *)
Lemma match0_first (s pre m : jsstring) :
  is_move_token m = true -> delimited_at s pre m ->
  (forall pre' m', (List.length pre' < List.length pre)%nat ->
     is_move_token m' = true -> ~ delimited_at s pre' m') ->
  match0 s moveMatcher = Some m.
Proof.
  intros Hm Hd Hfirst. unfold match0, exec.
  rewrite (exec_from_first moveMatcher s (S (List.length s)) 0
             (List.length pre) (List.length pre + List.length m)).
  - destruct Hd as (post & -> & _). now rewrite substring_app.
  - destruct Hd as (post & -> & _). rewrite !length_app. lia.
  - cbn [ignoreCase moveMatcher]. fold moveMatcher.
    rewrite matcher_at. now apply delimited_token_end.
  - intros j Hj. cbn [ignoreCase moveMatcher]. fold moveMatcher.
    rewrite matcher_at.
    destruct (token_end (word_before s j) (skipn j s) j) as [e|] eqn:E;
      [|reflexivity].
    apply token_end_delimited in E as (pre' & m' & Hl & _ & Hm' & Hd').
    exfalso. apply (Hfirst pre' m'); trivial. lia.
Qed.

(** [s.match(moveMatcher)] is [null] exactly when no move token stands
    between word boundaries in [s]. *)
Lemma match0_none (s : jsstring) :
  match0 s moveMatcher = None <->
  forall pre m, is_move_token m = true -> ~ delimited_at s pre m.
Proof.
  split.
  - intros H pre m Hm Hd. unfold match0, exec in H.
    destruct (exec_from moveMatcher s (S (List.length s)) 0) as [[i e]|] eqn:E;
      [discriminate|].
    rewrite exec_from_none in E. specialize (E (List.length pre)).
    cbn [ignoreCase moveMatcher] in E. fold moveMatcher in E.
    rewrite matcher_at, (delimited_token_end _ _ _ Hm Hd) in E.
    assert (Some (List.length pre + List.length m)%nat = None).
    { apply E. destruct Hd as (post & -> & _). rewrite !length_app. lia. }
    discriminate.
  - intros H. destruct (match0 s moveMatcher) as [m0|] eqn:E; [|reflexivity].
    apply match0_sound in E as (Hm & pre & Hd & _).
    exfalso. exact (H pre m0 Hm Hd).
Qed.

(** ** [moveMatcher] on sample texts *)

Example moveMatcher_plain :
  match0 (lit "e2e4") moveMatcher = Some (lit "e2e4").
Proof. reflexivity. Qed.

Example moveMatcher_in_text :
  match0 (lit "I play E7E8q now") moveMatcher = Some (lit "E7E8q").
Proof. reflexivity. Qed.

Example moveMatcher_hyphen :
  match0 (lit "e7-e8Q") moveMatcher = None.
Proof. reflexivity. Qed.

Example moveMatcher_glued :
  match0 (lit "xe2e4") moveMatcher = None.
Proof. reflexivity. Qed.

(** ** Running the handler *)

Ltac handler_unfold :=
  unfold ai_move, try_catch, ai_move_try, bind, lift, fetch, ret.

Lemma destructure_body_ok (req_body : value) :
  is_nullish req_body = false ->
  destructure_body req_body
  = Ok (prop req_body (lit "fen"), prop req_body (lit "history")).
Proof. intros H. unfold destructure_body. now rewrite H. Qed.

(** A request that passes validation and whose prompt is built reaches the
    upstream exactly once; what follows depends on the upstream's answer. *)
Lemma ai_move_reaches_upstream (e : env) (up : upstream) (req_body : value)
    (user_text : jsstring) :
  is_nullish req_body = false ->
  truthy (prop req_body (lit "fen")) = true ->
  user (prop req_body (lit "fen")) (prop req_body (lit "history")) = Ok user_text ->
  snd (ai_move e up req_body) = [completion_request e user_text].
Proof.
  intros Hb Hf Hu. handler_unfold.
  rewrite (destructure_body_ok _ Hb). cbn [fst snd]. rewrite Hf. cbn [negb].
  rewrite Hu. cbn [app].
  destruct (up (completion_request e user_text)) as [r|err]; [|reflexivity].
  destruct (ok r); cbn [negb].
  - destruct (json r) as [j|]; [|reflexivity].
    destruct (reply_of j) as [reply|]; [|reflexivity].
    destruct (truthy reply); cbn [negb]; [|reflexivity].
    destruct (reply_trim reply) as [t|]; [|reflexivity].
    destruct (truthy (extract_move t)); reflexivity.
  - destruct (text r); reflexivity.
Qed.

(** ** Request validation *)

(** C4.  A request without a parsed body has no [fen] either, yet it is
    not answered with status 400: destructuring [req.body] throws before
    the [!fen] test, and the handler's [catch] answers with status 500 and
    the TypeError's message.  No call to the upstream API is made. *)
Theorem bodiless_request_is_500 (e : env) (up : upstream) :
  prop VUndefined (lit "fen") = VUndefined
  /\ code (fst (ai_move e up VUndefined)) = 500%Z
  /\ code (fst (ai_move e up VUndefined)) <> 400%Z
  /\ exists msg,
       destructure_body VUndefined = Throw (TypeError msg)
       /\ ai_move e up VUndefined = (send 500 msg, []).
Proof.
  split; [reflexivity|]. split; [reflexivity|]. split; [discriminate|].
  eexists. split; reflexivity.
Qed.

(** X18.  A request whose parsed body has no [fen] field, or an empty one, is
    answered with status 400 and the text "Missing next move", and no call
    to the upstream API is made. *)
Theorem missing_fen_is_rejected (e : env) (up : upstream) (req_body : value) :
  is_nullish req_body = false ->
  prop req_body (lit "fen") = VUndefined \/ prop req_body (lit "fen") = VStr [] ->
  ai_move e up req_body = (send 400 (lit "Missing next move"), []).
Proof.
  intros Hb Hf. handler_unfold.
  rewrite (destructure_body_ok _ Hb). cbn [fst snd].
  destruct Hf as [-> | ->]; reflexivity.
Qed.

Lemma missing_fen_is_rejected_witness :
  ai_move Sample.environment (Sample.replying (Sample.completion (VStr (lit "e2e4"))))
    (VObj [(lit "history", VArr [])])
  = (send 400 (lit "Missing next move"), []).
Proof.
  apply missing_fen_is_rejected; [reflexivity | left; reflexivity].
Defined.

(** Any falsy [fen] is rejected the same way. *)
Lemma falsy_fen_is_rejected (e : env) (up : upstream) (req_body : value) :
  is_nullish req_body = false ->
  truthy (prop req_body (lit "fen")) = false ->
  ai_move e up req_body = (send 400 (lit "Missing next move"), []).
Proof.
  intros Hb Hf. handler_unfold.
  rewrite (destructure_body_ok _ Hb). cbn [fst snd]. now rewrite Hf.
Qed.

(** C9.  When [fen] is present and [history] is absent or is not an
    array, [history.map] throws a TypeError; the handler's [catch] answers
    with status 500 and the error's message, not with 400, and the upstream
    is not called. *)
Theorem unvalidated_history_is_500 (e : env) (up : upstream) (req_body : value) :
  is_nullish req_body = false ->
  truthy (prop req_body (lit "fen")) = true ->
  (forall elems, prop req_body (lit "history") <> VArr elems) ->
  exists msg,
    history_map (prop req_body (lit "history")) = Throw (TypeError msg)
    /\ ai_move e up req_body = (send 500 msg, []).
Proof.
  intros Hb Hf Hh. handler_unfold.
  rewrite (destructure_body_ok _ Hb). cbn [fst snd]. rewrite Hf. cbn [negb].
  unfold user.
  destruct (prop req_body (lit "history")) as [| |b|n|s|elems|props] eqn:E;
    try (eexists; split; reflexivity).
  now destruct (Hh elems).
Qed.

Lemma unvalidated_history_is_500_witness :
  exists msg,
    history_map (prop (VObj [(lit "fen", VStr Sample.fen_start)]) (lit "history"))
    = Throw (TypeError msg)
    /\ ai_move Sample.environment
         (Sample.replying (Sample.completion (VStr (lit "e2e4"))))
         (VObj [(lit "fen", VStr Sample.fen_start)])
       = (send 500 msg, []).
Proof.
  apply unvalidated_history_is_500;
    [reflexivity | reflexivity | intros elems; discriminate].
Defined.

(** ** The user instruction *)

Lemma history_entry_pair (elem : value) (from to : jsstring) (i : nat) :
  is_pair elem from to ->
  history_entry elem i = Ok (enumerated_entry i from to).
Proof.
  intros (props & -> & Hf & Ht). unfold history_entry.
  cbn [is_nullish prop]. rewrite Hf, Ht. reflexivity.
Qed.

Lemma map_indexed_pairs (elems : list value) (pairs : list (jsstring * jsstring)) :
  Forall2 (fun elem p => is_pair elem (fst p) (snd p)) elems pairs ->
  forall i, exists entries,
    map_indexed history_entry elems i = Ok entries
    /\ List.length entries = List.length elems
    /\ forall k from to, nth_error pairs k = Some (from, to) ->
         nth_error entries k = Some (enumerated_entry (i + k) from to).
Proof.
  induction 1 as [|elem [from to] elems pairs Hp _ IH]; intros i.
  - exists []. repeat split. intros [|k] ? ? H; discriminate H.
  - destruct (IH (S i)) as (entries & Hm & Hl & Hn).
    exists (enumerated_entry i from to :: entries).
    cbn [map_indexed]. rewrite (history_entry_pair _ _ _ _ Hp), Hm.
    cbn [rbind List.length]. repeat split; [now rewrite Hl|].
    intros [|k] f t Hk; cbn [nth_error] in *.
    + injection Hk as <- <-. now rewrite Nat.add_0_r.
    + rewrite (Hn _ _ _ Hk). now rewrite Nat.add_succ_r.
Qed.

Lemma stringify_strings (entries : list jsstring) :
  stringify_subst (VArr (map VStr entries))
  = lit "[" ++ join (lit ",") (map QuoteJSONString entries) ++ lit "]".
Proof.
  unfold stringify_subst. cbn [JSON_stringify]. rewrite map_map. reflexivity.
Qed.

(** C7.  For a history that is an array of [{from, to}] pairs, the user
    instruction carries the JSON array of exactly [len(history)] entries,
    the entry of index [i] being ["<i+1>. <from>-<to>"], in the order of
    the list; the empty history gives the empty enumeration [[]], without
    error. *)
Theorem user_enumerates_history (fen : value) (elems : list value)
    (pairs : list (jsstring * jsstring)) :
  Forall2 (fun elem p => is_pair elem (fst p) (snd p)) elems pairs ->
  exists entries,
    user fen (VArr elems)
    = Ok (user_prefix ++ lit "[" ++ join (lit ",") (map QuoteJSONString entries)
          ++ lit "]" ++ user_suffix)
    /\ List.length entries = List.length elems
    /\ (forall i from to, nth_error pairs i = Some (from, to) ->
          nth_error entries i = Some (enumerated_entry i from to))
    /\ (elems = [] ->
          user fen (VArr elems) = Ok (lit "FEN: Move history: []" ++ user_suffix)).
Proof.
  intros H. destruct (map_indexed_pairs _ _ H 0) as (entries & Hm & Hl & Hn).
  exists entries. unfold user. cbn [history_map]. rewrite Hm. cbn [rbind].
  rewrite stringify_strings, <- !app_assoc. repeat split; trivial.
  intros ->. cbn in Hm. injection Hm as <-. reflexivity.
Qed.

Lemma user_enumerates_history_witness :
  exists entries,
    user (VStr Sample.fen_start)
      (VArr [Sample.pair (lit "e2") (lit "e4"); Sample.pair (lit "e7") (lit "e5")])
    = Ok (user_prefix ++ lit "[" ++ join (lit ",") (map QuoteJSONString entries)
          ++ lit "]" ++ user_suffix)
    /\ List.length entries = 2%nat
    /\ (forall i from to,
          nth_error [(lit "e2", lit "e4"); (lit "e7", lit "e5")] i = Some (from, to) ->
          nth_error entries i = Some (enumerated_entry i from to))
    /\ ([Sample.pair (lit "e2") (lit "e4"); Sample.pair (lit "e7") (lit "e5")] = [] ->
          user (VStr Sample.fen_start)
            (VArr [Sample.pair (lit "e2") (lit "e4"); Sample.pair (lit "e7") (lit "e5")])
          = Ok (lit "FEN: Move history: []" ++ user_suffix)).
Proof.
  apply (user_enumerates_history (VStr Sample.fen_start)
           [Sample.pair (lit "e2") (lit "e4"); Sample.pair (lit "e7") (lit "e5")]
           [(lit "e2", lit "e4"); (lit "e7", lit "e5")]).
  repeat constructor; eexists; repeat split; reflexivity.
Defined.

Example user_two_plies :
  user (VStr Sample.fen_start)
    (VArr [Sample.pair (lit "e2") (lit "e4"); Sample.pair (lit "e7") (lit "e5")])
  = Ok (lit "FEN: Move history: [" ++ [34] ++ lit "1. e2-e4" ++ [34] ++ lit ","
        ++ [34] ++ lit "2. e7-e5" ++ [34] ++ lit "]" ++ [10]
        ++ lit "Respond with one UCI move only.").
Proof. reflexivity. Qed.

(** C1.  The user instruction built for a request with the starting
    position and an empty history is
    ["FEN: Move history: []\nRespond with one UCI move only."]: the
    position supplied by the client does not occur in it, nor in the body
    of the call sent upstream. *)
Theorem user_omits_fen :
  user (VStr Sample.fen_start) (VArr [])
  = Ok (lit "FEN: Move history: []" ++ [10] ++ lit "Respond with one UCI move only.")
  /\ ~ (exists pre post,
          lit "FEN: Move history: []" ++ [10] ++ lit "Respond with one UCI move only."
          = pre ++ Sample.fen_start ++ post)
  /\ forall up : upstream,
       exists sent_body,
         map body (snd (ai_move Sample.environment up
                          (Sample.request_body Sample.fen_start (VArr []))))
         = [Some sent_body]
         /\ includes sent_body Sample.fen_start = false.
Proof.
  split; [reflexivity|]. split.
  { intros H. apply includes_spec in H. vm_compute in H. discriminate H. }
  intros up.
  rewrite (ai_move_reaches_upstream _ _ _
             (lit "FEN: Move history: []" ++ [10]
              ++ lit "Respond with one UCI move only."));
    try reflexivity.
  eexists. split; [vm_compute; reflexivity|]. vm_compute. reflexivity.
Qed.

(** The user instruction does not depend on the position at all. *)
Lemma user_ignores_fen (fen fen' history : value) :
  user fen history = user fen' history.
Proof. reflexivity. Qed.

(** ** Answers of the upstream *)

Ltac run_to_upstream Hb Hf Hu Hup :=
  handler_unfold;
  rewrite (destructure_body_ok _ Hb); cbn [fst snd];
  rewrite Hf; cbn [negb]; rewrite Hu; cbn [app]; rewrite Hup.

Lemma reply_of_completion (content : value) :
  reply_of (Sample.completion content) = Ok content.
Proof. reflexivity. Qed.

(** C5.  A non-success status with body text [{}] and status text
    [Unauthorized]: the client receives ["OpenAI API error: {}"], in which
    the upstream's status text does not occur. *)
Lemma upstream_status_text_not_forwarded :
  ai_move Sample.environment
    (Sample.failing 401 (lit "Unauthorized") (lit "{}") (VObj []))
    (Sample.request_body Sample.fen_start (VArr []))
  = (send 500 (lit "OpenAI API error: {}"),
     [completion_request Sample.environment
        (lit "FEN: Move history: []" ++ user_suffix)])
  /\ includes (lit "OpenAI API error: {}") (lit "Unauthorized") = false.
Proof. split; vm_compute; reflexivity. Qed.

(** C5, amended.  For a non-success status of the upstream the handler
    answers with status 500 and a text, after its single call and whatever
    the body holds: the text is ["OpenAI API error: "] followed by the body
    text of the upstream response when that body can be read, and the
    message of the read error otherwise. *)
Theorem upstream_error_is_500 (e : env) (up : upstream) (req_body : value)
    (user_text : jsstring) (r : Response) :
  is_nullish req_body = false ->
  truthy (prop req_body (lit "fen")) = true ->
  user (prop req_body (lit "fen")) (prop req_body (lit "history")) = Ok user_text ->
  up (completion_request e user_text) = Ok r ->
  ok r = false ->
  snd (ai_move e up req_body) = [completion_request e user_text]
  /\ (exists diagnostic, fst (ai_move e up req_body) = send 500 diagnostic)
  /\ (forall txt, text r = Ok txt ->
        fst (ai_move e up req_body) = send 500 (lit "OpenAI API error: " ++ txt))
  /\ (forall err, text r = Throw err ->
        fst (ai_move e up req_body) = send 500 (message err)).
Proof.
  intros Hb Hf Hu Hup Hok. run_to_upstream Hb Hf Hu Hup. rewrite Hok. cbn [negb].
  destruct (text r) as [txt|err]; cbn [fst snd]; repeat split;
    try (eexists; reflexivity); congruence.
Qed.

Lemma upstream_error_is_500_witness :
  fst (ai_move Sample.environment
         (Sample.failing 429 (lit "Too Many Requests") (lit "quota exceeded")
            (Sample.completion (VStr (lit "e2e4"))))
         (Sample.request_body Sample.fen_start (VArr [])))
  = send 500 (lit "OpenAI API error: quota exceeded").
Proof.
  refine (proj1 (proj2 (proj2
    (upstream_error_is_500 Sample.environment
       (Sample.failing 429 (lit "Too Many Requests") (lit "quota exceeded")
          (Sample.completion (VStr (lit "e2e4"))))
       (Sample.request_body Sample.fen_start (VArr []))
       (lit "FEN: Move history: []" ++ user_suffix)
       {| status := 429; statusText := lit "Too Many Requests";
          text := Ok (lit "quota exceeded");
          json := Ok (Sample.completion (VStr (lit "e2e4"))) |}
       _ _ _ _ _))) (lit "quota exceeded") _); reflexivity.
Defined.

Lemma no_text_payload_falsy (j : value) :
  no_text_payload j -> exists v, reply_of j = Ok v /\ truthy v = false.
Proof.
  unfold reply_of, and_then.
  destruct 1 as [props H|props H|props cprops rest H H0|props cprops rest mprops H H0 H1
                 |props cprops rest mprops H H0 H1];
    cbn [get rbind]; rewrite H; cbn [truthy get0 get rbind];
    rewrite ?H0; cbn [truthy get0 get rbind]; rewrite ?H1;
    eexists; split; reflexivity.
Qed.

(** C6.  For a success status whose body carries no text payload, the
    handler answers with status 500 and a diagnostic text after its single
    call, and no move is extracted: for a body that cannot be parsed, or
    whose content is not a non-empty string, the answer is some text with
    status 500; when [choices], its first entry, [message] or [content] is
    missing or the content is empty, the text is ["Empty reply from OpenAI"]. *)
Theorem empty_reply_is_500 (e : env) (up : upstream) (req_body : value)
    (user_text : jsstring) (r : Response) :
  is_nullish req_body = false ->
  truthy (prop req_body (lit "fen")) = true ->
  user (prop req_body (lit "fen")) (prop req_body (lit "history")) = Ok user_text ->
  up (completion_request e user_text) = Ok r ->
  ok r = true ->
  ((forall j s, json r = Ok j -> reply_of j = Ok (VStr s) -> s = []) ->
     exists diagnostic,
       ai_move e up req_body
       = (send 500 diagnostic, [completion_request e user_text]))
  /\ (forall j, json r = Ok j -> no_text_payload j ->
        ai_move e up req_body
        = (send 500 (lit "Empty reply from OpenAI"),
           [completion_request e user_text])).
Proof.
  intros Hb Hf Hu Hup Hok. run_to_upstream Hb Hf Hu Hup. rewrite Hok. cbn [negb].
  split.
  - intros Hnone. destruct (json r) as [j|err]; [|eexists; reflexivity].
    specialize (Hnone j). destruct (reply_of j) as [reply|err];
      [|eexists; reflexivity].
    destruct (truthy reply) eqn:T; cbn [negb]; [|eexists; reflexivity].
    destruct reply as [| |b|n|s|elems|props]; try (eexists; reflexivity).
    rewrite (Hnone s eq_refl eq_refl) in T. discriminate T.
  - intros j -> Hj. destruct (no_text_payload_falsy _ Hj) as (v & -> & ->).
    reflexivity.
Qed.

Lemma empty_reply_is_500_witness :
  ai_move Sample.environment (Sample.replying (Sample.completion (VStr [])))
    (Sample.request_body Sample.fen_start (VArr []))
  = (send 500 (lit "Empty reply from OpenAI"),
     [completion_request Sample.environment
        (lit "FEN: Move history: []" ++ user_suffix)]).
Proof.
  refine (proj2
    (empty_reply_is_500 Sample.environment
       (Sample.replying (Sample.completion (VStr [])))
       (Sample.request_body Sample.fen_start (VArr []))
       (lit "FEN: Move history: []" ++ user_suffix)
       {| status := 200; statusText := lit "OK";
          text := Ok (stringify_subst (Sample.completion (VStr [])));
          json := Ok (Sample.completion (VStr [])) |}
       _ _ _ _ _) (Sample.completion (VStr [])) _ _); try reflexivity.
  eapply empty_content; reflexivity.
Defined.

(** ** Extraction of the move *)

Lemma segment_of_trim (s pre m post : jsstring) :
  trim s = pre ++ m ++ post -> exists pre' post', s = pre' ++ m ++ post'.
Proof.
  intros H. destruct (trim_segment s) as (a & b & Hs). rewrite H in Hs.
  exists (a ++ pre), (post ++ b). rewrite Hs, <- !app_assoc. reflexivity.
Qed.

Lemma no_segment_no_match (s : jsstring) :
  (forall pre m post, s = pre ++ m ++ post -> is_move_token m = false) ->
  match0 (trim s) moveMatcher = None.
Proof.
  intros H. apply match0_none. intros pre m Hm (post & Hs & _).
  apply segment_of_trim in Hs as (pre' & post' & Hs).
  rewrite (H _ _ _ Hs) in Hm. discriminate Hm.
Qed.

Lemma token_length (m : jsstring) :
  is_move_token m = true -> List.length m = 4%nat \/ List.length m = 5%nat.
Proof.
  destruct m as [|f1 [|r1 [|f2 [|r2 [|p [|x m]]]]]]; try discriminate; auto.
Qed.

Lemma token_no_hyphen (m : jsstring) : is_move_token m = true -> ~ In 45 m.
Proof.
  assert (Hf : is_file 45 = false) by reflexivity.
  assert (Hr : is_rank 45 = false) by reflexivity.
  assert (Hp : is_promotion 45 = false) by reflexivity.
  destruct m as [|f1 [|r1 [|f2 [|r2 [|p [|x m]]]]]]; try discriminate;
    cbn [is_move_token]; rewrite !andb_true_iff; cbn [In];
    intros H Hin; decompose [and or] Hin; subst; decompose [and] H; congruence.
Qed.

Lemma has_token_segment_spec (s : jsstring) :
  has_token_segment s = false ->
  forall pre m post, s = pre ++ m ++ post -> is_move_token m = false.
Proof.
  intros H pre. revert s H. induction pre as [|c pre IH]; intros s H m post ->.
  - destruct (is_move_token m) eqn:Hm; [|reflexivity].
    assert (Hseg : is_move_token (firstn 4 (m ++ post)) = true
                   \/ is_move_token (firstn 5 (m ++ post)) = true).
    { destruct (token_length _ Hm) as [Hl|Hl]; [left|right];
        rewrite <- Hl, firstn_app, firstn_all, Nat.sub_diag, app_nil_r;
        exact Hm. }
    cbn [app] in H. destruct (m ++ post) eqn:E; cbn [has_token_segment] in H;
      destruct Hseg as [Hs|Hs]; rewrite Hs in H; cbn in H;
      try discriminate H; rewrite ?orb_true_r in H; discriminate H.
  - cbn [app has_token_segment] in H. apply orb_false_iff in H as [_ H].
    eapply IH; [exact H|reflexivity].
Qed.

(** C3.  When the upstream answers with a success status and a non-empty
    text that holds no segment matching the move pattern, the handler
    answers with status 200 and the body [{ move: null, raw: r }], [r]
    being the reply text unchanged. *)
Theorem unparsed_reply_is_soft_failure (e : env) (up : upstream)
    (req_body : value) (user_text : jsstring) (r : Response) (j : value)
    (s : jsstring) :
  is_nullish req_body = false ->
  truthy (prop req_body (lit "fen")) = true ->
  user (prop req_body (lit "fen")) (prop req_body (lit "history")) = Ok user_text ->
  up (completion_request e user_text) = Ok r ->
  ok r = true ->
  json r = Ok j ->
  reply_of j = Ok (VStr s) ->
  s <> [] ->
  (forall pre m post, s = pre ++ m ++ post -> is_move_token m = false) ->
  ai_move e up req_body
  = ({| code := 200;
        sent := Json (VObj [(lit "move", VNull); (lit "raw", VStr s)]) |},
     [completion_request e user_text]).
Proof.
  intros Hb Hf Hu Hup Hok Hj Hr Hs Hnone.
  run_to_upstream Hb Hf Hu Hup. rewrite Hok. cbn [negb]. rewrite Hj, Hr.
  destruct s as [|c s]; [congruence|]. cbn [truthy negb reply_trim].
  unfold extract_move. rewrite (no_segment_no_match _ Hnone). reflexivity.
Qed.

Lemma unparsed_reply_is_soft_failure_witness :
  ai_move Sample.environment
    (Sample.replying (Sample.completion (VStr (lit "I cannot determine a move"))))
    (Sample.request_body Sample.fen_start (VArr []))
  = ({| code := 200;
        sent := Json (VObj [(lit "move", VNull);
                            (lit "raw", VStr (lit "I cannot determine a move"))]) |},
     [completion_request Sample.environment
        (lit "FEN: Move history: []" ++ user_suffix)]).
Proof.
  apply (unparsed_reply_is_soft_failure Sample.environment _ _ _
           {| status := 200; statusText := lit "OK";
              text := Ok (stringify_subst
                (Sample.completion (VStr (lit "I cannot determine a move"))));
              json := Ok (Sample.completion (VStr (lit "I cannot determine a move"))) |}
           (Sample.completion (VStr (lit "I cannot determine a move"))));
    try reflexivity.
  - discriminate.
  - apply has_token_segment_spec. vm_compute. reflexivity.
Defined.

Lemma match0_token (s m0 : jsstring) :
  match0 s moveMatcher = Some m0 ->
  is_move_token m0 = true /\ replace_first 45 [] m0 = m0
  /\ exists pre post, s = pre ++ m0 ++ post.
Proof.
  intros H. apply match0_sound in H as (Hm & pre & (post & Hs & _) & _).
  repeat split; trivial.
  - apply replace_first_absent, token_no_hyphen, Hm.
  - now exists pre, post.
Qed.

Lemma extract_move_string (t mv : jsstring) :
  extract_move t = VStr mv -> match0 t moveMatcher = Some mv.
Proof.
  unfold extract_move. destruct (match0 t moveMatcher) as [m0|] eqn:E;
    [|discriminate].
  destruct (match0_token _ _ E) as (_ & -> & _). now intros [= ->].
Qed.

Lemma token_before_spec (s : jsstring) (n : nat) :
  token_before s n = false ->
  forall pre m, (List.length pre < n)%nat -> is_move_token m = true ->
    ~ delimited_at s pre m.
Proof.
  induction n as [|n IH]; intros H pre m Hlt Hm Hd; [lia|].
  cbn [token_before] in H.
  destruct (token_end (word_before s n) (skipn n s) n) eqn:E; [discriminate|].
  destruct (Nat.eq_dec (List.length pre) n) as [Heq|Hne].
  - subst n. rewrite (delimited_token_end _ _ _ Hm Hd) in E. discriminate E.
  - apply (IH H pre m); trivial. lia.
Qed.

(** C2.  The reply "Sure — e7-e8Q" holds the hyphenated move, yet nothing
    is extracted from it: the handler answers [{ move: null, raw }]. *)
Lemma hyphenated_reply_not_extracted :
  extract_move (trim Sample.hyphenated_reply) = VNull
  /\ extract_move (trim Sample.hyphenated_reply) <> VStr (lit "e7e8Q")
  /\ fst (ai_move Sample.environment
            (Sample.replying (Sample.completion (VStr Sample.hyphenated_reply)))
            (Sample.request_body Sample.fen_start (VArr [])))
     = send_json (VObj [(lit "move", VNull);
                        (lit "raw", VStr Sample.hyphenated_reply)]).
Proof.
  assert (H : extract_move (trim Sample.hyphenated_reply) = VNull)
    by (vm_compute; reflexivity).
  split; [exact H|]. split; [rewrite H; discriminate|]. vm_compute. reflexivity.
Qed.

(** When the trimmed reply holds a move token (two file-rank pairs and an
    optional promotion letter, without hyphen) between word boundaries, the
    extractor returns the first such token, unchanged and with its case
    preserved. *)
Lemma first_delimited_token_is_extracted (reply pre m : jsstring) :
  is_move_token m = true ->
  delimited_at (trim reply) pre m ->
  (forall pre' m', (List.length pre' < List.length pre)%nat ->
     is_move_token m' = true -> ~ delimited_at (trim reply) pre' m') ->
  extract_move (trim reply) = VStr m.
Proof.
  intros Hm Hd Hfirst. unfold extract_move.
  rewrite (match0_first _ _ _ Hm Hd Hfirst).
  now rewrite (replace_first_absent _ _ _ (token_no_hyphen _ Hm)).
Qed.

Lemma first_delimited_token_is_extracted_witness :
  extract_move (trim Sample.compact_reply) = VStr (lit "e7e8Q").
Proof.
  apply (first_delimited_token_is_extracted Sample.compact_reply
           (lit "Sure " ++ [8212] ++ lit " ") (lit "e7e8Q")).
  - reflexivity.
  - exists []. repeat split; reflexivity.
  - apply token_before_spec. vm_compute. reflexivity.
Defined.

Example compact_reply_response :
  fst (ai_move Sample.environment
         (Sample.replying (Sample.completion (VStr Sample.compact_reply)))
         (Sample.request_body Sample.fen_start (VArr [])))
  = send_json (VObj [(lit "move", VStr (lit "e7e8Q"))]).
Proof. vm_compute. reflexivity. Qed.

(** C10.  Whenever the extractor returns a move, that move is the segment
    of the trimmed reply that [moveMatcher] matched, character for
    character: no match of [moveMatcher] holds a hyphen, so replacing the
    first hyphen leaves every match as it is. *)
Theorem hyphen_replacement_is_identity (reply mv : jsstring) :
  extract_move (trim reply) = VStr mv ->
  match0 (trim reply) moveMatcher = Some mv
  /\ (exists pre post, trim reply = pre ++ mv ++ post)
  /\ ~ In 45 mv
  /\ forall s m0, match0 s moveMatcher = Some m0 ->
       ~ In 45 m0 /\ replace_first 45 [] m0 = m0.
Proof.
  intros H. apply extract_move_string in H.
  destruct (match0_token _ _ H) as (Hm & _ & Hseg).
  split; [exact H|]. split; [exact Hseg|]. split; [now apply token_no_hyphen|].
  - intros s m0 H0. apply match0_token in H0 as (Hm0 & Hr0 & _).
    split; [now apply token_no_hyphen|exact Hr0].
Qed.

Lemma hyphen_replacement_is_identity_witness :
  match0 (trim (lit "  e2e4 ")) moveMatcher = Some (lit "e2e4")
  /\ (exists pre post, trim (lit "  e2e4 ") = pre ++ lit "e2e4" ++ post)
  /\ ~ In 45 (lit "e2e4")
  /\ forall s m0, match0 s moveMatcher = Some m0 ->
       ~ In 45 m0 /\ replace_first 45 [] m0 = m0.
Proof.
  apply (hyphen_replacement_is_identity (lit "  e2e4 ") (lit "e2e4")).
  reflexivity.
Defined.

(** ** The successful responses *)

(** C8.  In a response with status 200 the body is a JSON object with a
    [move] field that is [null] or a string of four or five characters
    matching the move pattern, and the [raw] field is present exactly when
    [move] is [null]. *)
Theorem move_result_shape (e : env) (up : upstream) (req_body : value)
    (resp : http_response) (calls : list request) :
  ai_move e up req_body = (resp, calls) ->
  code resp = 200%Z ->
  exists props,
    sent resp = Json (VObj props)
    /\ has_own (lit "move") props = true
    /\ (lookup (lit "move") props = VNull
        \/ exists m, lookup (lit "move") props = VStr m
             /\ is_move_token m = true
             /\ (List.length m = 4%nat \/ List.length m = 5%nat))
    /\ (has_own (lit "raw") props = true <-> lookup (lit "move") props = VNull).
Proof.
  intros H Hc. revert H. handler_unfold.
  destruct (destructure_body req_body) as [[fen history]|err]; cbn [fst snd];
    [|intros [= <- <-]; discriminate Hc].
  destruct (truthy fen); cbn [negb]; [|intros [= <- <-]; discriminate Hc].
  destruct (user fen history) as [user_text|err];
    [|intros [= <- <-]; discriminate Hc].
  destruct (up (completion_request e user_text)) as [r|err];
    [|intros [= <- <-]; discriminate Hc].
  destruct (ok r); cbn [negb];
    [|destruct (text r); intros [= <- <-]; discriminate Hc].
  destruct (json r) as [j|err]; [|intros [= <- <-]; discriminate Hc].
  destruct (reply_of j) as [reply|err]; [|intros [= <- <-]; discriminate Hc].
  destruct (truthy reply); cbn [negb]; [|intros [= <- <-]; discriminate Hc].
  destruct (reply_trim reply) as [t|err]; [|intros [= <- <-]; discriminate Hc].
  unfold extract_move.
  destruct (match0 t moveMatcher) as [m0|] eqn:E.
  - destruct (match0_token _ _ E) as (Hm & -> & _).
    assert (Ht : truthy (VStr m0) = true).
    { destruct m0; [discriminate Hm|reflexivity]. }
    rewrite Ht. cbn [negb]. intros [= <- <-].
    exists [(lit "move", VStr m0)]. split; [reflexivity|].
    split; [reflexivity|]. split.
    + right. exists m0. repeat split; trivial. now apply token_length.
    + split; discriminate.
  - cbn [truthy negb]. intros [= <- <-].
    exists [(lit "move", VNull); (lit "raw", reply)].
    repeat split; auto.
Qed.

Lemma move_result_shape_witness :
  exists props,
    sent (send_json (VObj [(lit "move", VStr (lit "e2e4"))])) = Json (VObj props)
    /\ has_own (lit "move") props = true
    /\ (lookup (lit "move") props = VNull
        \/ exists m, lookup (lit "move") props = VStr m
             /\ is_move_token m = true
             /\ (List.length m = 4%nat \/ List.length m = 5%nat))
    /\ (has_own (lit "raw") props = true <-> lookup (lit "move") props = VNull).
Proof.
  apply (move_result_shape Sample.environment
           (Sample.replying (Sample.completion (VStr (lit "e2e4"))))
           (Sample.request_body Sample.fen_start (VArr []))
           (send_json (VObj [(lit "move", VStr (lit "e2e4"))]))
           [completion_request Sample.environment
              (lit "FEN: Move history: []" ++ user_suffix)]);
    reflexivity.
Defined.

(** * Further properties of the handler *)

(** ** Outbound calls *)

(** X1.  The outbound calls are fixed by the request alone: none for a request
    that fails validation or whose prompt cannot be built, and otherwise
    the single call that carries the user instruction, whatever the
    upstream answers. *)
Theorem outbound_calls_of_request (e : env) (up : upstream) (req_body : value) :
  snd (ai_move e up req_body)
  = if is_nullish req_body then []
    else if truthy (prop req_body (lit "fen")) then
      match user (prop req_body (lit "fen")) (prop req_body (lit "history")) with
      | Ok user_text => [completion_request e user_text]
      | Throw _ => []
      end
    else [].
Proof.
  destruct (is_nullish req_body) eqn:Hb.
  - handler_unfold. unfold destructure_body. rewrite Hb. reflexivity.
  - destruct (truthy (prop req_body (lit "fen"))) eqn:Hf.
    + destruct (user (prop req_body (lit "fen")) (prop req_body (lit "history")))
        as [user_text|err] eqn:Hu.
      * now apply ai_move_reaches_upstream.
      * handler_unfold. rewrite (destructure_body_ok _ Hb). cbn [fst snd].
        rewrite Hf. cbn [negb]. rewrite Hu. reflexivity.
    + now rewrite falsy_fen_is_rejected.
Qed.

(** ** Status codes *)

(** X2.  Every request is answered with status 200, 400 or 500, and with 400
    exactly when the body is there and its [fen] is falsy. *)
Theorem status_is_200_400_or_500 (e : env) (up : upstream) (req_body : value) :
  (code (fst (ai_move e up req_body)) = 200
   \/ code (fst (ai_move e up req_body)) = 400
   \/ code (fst (ai_move e up req_body)) = 500)%Z
  /\ (code (fst (ai_move e up req_body)) = 400%Z
      <-> is_nullish req_body = false
          /\ truthy (prop req_body (lit "fen")) = false).
Proof.
  destruct (is_nullish req_body) eqn:Hb.
  { handler_unfold. unfold destructure_body. rewrite Hb. cbn.
    split; [auto|]. split; [discriminate|]. intros [H _]. discriminate H. }
  destruct (truthy (prop req_body (lit "fen"))) eqn:Hf.
  2:{ rewrite (falsy_fen_is_rejected _ _ _ Hb Hf). cbn. tauto. }
  handler_unfold. rewrite (destructure_body_ok _ Hb). cbn [fst snd].
  rewrite Hf. cbn [negb].
  assert (Hno : forall c : Z, c <> 400%Z ->
            (c = 200 \/ c = 400 \/ c = 500)%Z ->
            (c = 200 \/ c = 400 \/ c = 500)%Z
            /\ (c = 400%Z <-> false = false /\ true = false)).
  { intros c Hc H. split; [exact H|]. split; [contradiction|].
    intros [_ H']. discriminate H'. }
  destruct (user (prop req_body (lit "fen")) (prop req_body (lit "history")))
    as [user_text|err]; [|cbn; apply Hno; [discriminate|auto]].
  cbn [app].
  destruct (up (completion_request e user_text)) as [r|err];
    [|cbn; apply Hno; [discriminate|auto]].
  destruct (ok r); cbn [negb].
  - destruct (json r) as [j|err]; [|cbn; apply Hno; [discriminate|auto]].
    destruct (reply_of j) as [reply|err]; [|cbn; apply Hno; [discriminate|auto]].
    destruct (truthy reply); cbn [negb]; [|cbn; apply Hno; [discriminate|auto]].
    destruct (reply_trim reply) as [t|err]; [|cbn; apply Hno; [discriminate|auto]].
    destruct (truthy (extract_move t)); cbn; apply Hno; try discriminate; auto.
  - destruct (text r); cbn; apply Hno; try discriminate; auto.
Qed.

(** ** Failures of the upstream call *)

(** X3.  When [fetch] itself fails, the handler answers with status 500 and the
    error's message, after its single attempt. *)
Theorem transport_failure_is_500 (e : env) (up : upstream) (req_body : value)
    (user_text : jsstring) (err : exn) :
  is_nullish req_body = false ->
  truthy (prop req_body (lit "fen")) = true ->
  user (prop req_body (lit "fen")) (prop req_body (lit "history")) = Ok user_text ->
  up (completion_request e user_text) = Throw err ->
  ai_move e up req_body
  = (send 500 (message err), [completion_request e user_text]).
Proof.
  intros Hb Hf Hu Hup. run_to_upstream Hb Hf Hu Hup. reflexivity.
Qed.

Lemma transport_failure_is_500_witness :
  ai_move Sample.environment (fun _ => Throw (FetchError (lit "fetch failed")))
    (Sample.request_body Sample.fen_start (VArr []))
  = (send 500 (lit "fetch failed"),
     [completion_request Sample.environment
        (lit "FEN: Move history: []" ++ user_suffix)]).
Proof.
  apply (transport_failure_is_500 Sample.environment
           (fun _ => Throw (FetchError (lit "fetch failed")))
           (Sample.request_body Sample.fen_start (VArr []))
           (lit "FEN: Move history: []" ++ user_suffix)
           (FetchError (lit "fetch failed"))); reflexivity.
Defined.

(** X4.  When the upstream answers with a success status and a body that is not
    JSON, the handler answers with status 500 and the parse error's
    message. *)
Theorem unparsable_body_is_500 (e : env) (up : upstream) (req_body : value)
    (user_text : jsstring) (r : Response) (err : exn) :
  is_nullish req_body = false ->
  truthy (prop req_body (lit "fen")) = true ->
  user (prop req_body (lit "fen")) (prop req_body (lit "history")) = Ok user_text ->
  up (completion_request e user_text) = Ok r ->
  ok r = true ->
  json r = Throw err ->
  ai_move e up req_body
  = (send 500 (message err), [completion_request e user_text]).
Proof.
  intros Hb Hf Hu Hup Hok Hj. run_to_upstream Hb Hf Hu Hup.
  rewrite Hok. cbn [negb]. rewrite Hj. reflexivity.
Qed.

Lemma unparsable_body_is_500_witness :
  ai_move Sample.environment
    (fun _ => Ok {| status := 200; statusText := lit "OK";
                    text := Ok (lit "<html>");
                    json := Throw (SyntaxError (lit "Unexpected token <")) |})
    (Sample.request_body Sample.fen_start (VArr []))
  = (send 500 (lit "Unexpected token <"),
     [completion_request Sample.environment
        (lit "FEN: Move history: []" ++ user_suffix)]).
Proof.
  apply (unparsable_body_is_500 Sample.environment _
           (Sample.request_body Sample.fen_start (VArr []))
           (lit "FEN: Move history: []" ++ user_suffix)
           {| status := 200; statusText := lit "OK";
              text := Ok (lit "<html>");
              json := Throw (SyntaxError (lit "Unexpected token <")) |}
           (SyntaxError (lit "Unexpected token <"))); reflexivity.
Defined.

(** X5.  A content that is truthy without being a string (a number, an array,
    an object) has no [trim] method: the handler answers with status 500
    and ["reply.trim is not a function"]. *)
Theorem non_string_content_is_500 (e : env) (up : upstream) (req_body : value)
    (user_text : jsstring) (r : Response) (j reply : value) :
  is_nullish req_body = false ->
  truthy (prop req_body (lit "fen")) = true ->
  user (prop req_body (lit "fen")) (prop req_body (lit "history")) = Ok user_text ->
  up (completion_request e user_text) = Ok r ->
  ok r = true ->
  json r = Ok j ->
  reply_of j = Ok reply ->
  truthy reply = true ->
  (forall s, reply <> VStr s) ->
  ai_move e up req_body
  = (send 500 (lit "reply.trim is not a function"),
     [completion_request e user_text]).
Proof.
  intros Hb Hf Hu Hup Hok Hj Hr Ht Hs. run_to_upstream Hb Hf Hu Hup.
  rewrite Hok. cbn [negb]. rewrite Hj, Hr, Ht. cbn [negb].
  destruct reply as [| |b|n|s|elems|props]; try discriminate Ht;
    try reflexivity.
  now destruct (Hs s).
Qed.

Lemma non_string_content_is_500_witness :
  ai_move Sample.environment
    (Sample.replying (Sample.completion (VArr [VStr (lit "e2e4")])))
    (Sample.request_body Sample.fen_start (VArr []))
  = (send 500 (lit "reply.trim is not a function"),
     [completion_request Sample.environment
        (lit "FEN: Move history: []" ++ user_suffix)]).
Proof.
  apply (non_string_content_is_500 Sample.environment _
           (Sample.request_body Sample.fen_start (VArr []))
           (lit "FEN: Move history: []" ++ user_suffix)
           {| status := 200; statusText := lit "OK";
              text := Ok (stringify_subst
                (Sample.completion (VArr [VStr (lit "e2e4")])));
              json := Ok (Sample.completion (VArr [VStr (lit "e2e4")])) |}
           (Sample.completion (VArr [VStr (lit "e2e4")]))
           (VArr [VStr (lit "e2e4")])); try reflexivity.
  intros s. discriminate.
Defined.

(** ** Text replies *)

Lemma truthy_token (m : jsstring) :
  is_move_token m = true -> truthy (VStr m) = true.
Proof. destruct m; [discriminate|reflexivity]. Qed.

(** What the handler answers to a non-empty text reply. *)
Lemma ai_move_text_reply (e : env) (up : upstream) (req_body : value)
    (user_text : jsstring) (r : Response) (j : value) (s : jsstring) :
  is_nullish req_body = false ->
  truthy (prop req_body (lit "fen")) = true ->
  user (prop req_body (lit "fen")) (prop req_body (lit "history")) = Ok user_text ->
  up (completion_request e user_text) = Ok r ->
  ok r = true ->
  json r = Ok j ->
  reply_of j = Ok (VStr s) ->
  s <> [] ->
  ai_move e up req_body
  = (send_json
       match match0 (trim s) moveMatcher with
       | Some m0 => VObj [(lit "move", VStr m0)]
       | None => VObj [(lit "move", VNull); (lit "raw", VStr s)]
       end,
     [completion_request e user_text]).
Proof.
  intros Hb Hf Hu Hup Hok Hj Hr Hs. run_to_upstream Hb Hf Hu Hup.
  rewrite Hok. cbn [negb]. rewrite Hj, Hr.
  destruct s as [|c s]; [congruence|]. cbn [truthy negb reply_trim].
  unfold extract_move.
  destruct (match0 (trim (c :: s)) moveMatcher) as [m0|] eqn:E; [|reflexivity].
  destruct (match0_token _ _ E) as (Hm & -> & _).
  now rewrite (truthy_token _ Hm).
Qed.

(** X6.  When the reply text holds a move token between word boundaries, the
    handler answers with status 200 and the body [{ move }] that holds the
    first such token and nothing else: no [raw] field, no commentary. *)
Theorem extracted_move_is_returned (e : env) (up : upstream) (req_body : value)
    (user_text : jsstring) (r : Response) (j : value) (s pre m : jsstring) :
  is_nullish req_body = false ->
  truthy (prop req_body (lit "fen")) = true ->
  user (prop req_body (lit "fen")) (prop req_body (lit "history")) = Ok user_text ->
  up (completion_request e user_text) = Ok r ->
  ok r = true ->
  json r = Ok j ->
  reply_of j = Ok (VStr s) ->
  is_move_token m = true ->
  delimited_at (trim s) pre m ->
  (forall pre' m', (List.length pre' < List.length pre)%nat ->
     is_move_token m' = true -> ~ delimited_at (trim s) pre' m') ->
  ai_move e up req_body
  = ({| code := 200; sent := Json (VObj [(lit "move", VStr m)]) |},
     [completion_request e user_text]).
Proof.
  intros Hb Hf Hu Hup Hok Hj Hr Hm Hd Hfirst.
  assert (Hs : s <> []).
  { intros ->. destruct Hd as (post & Hd & _). cbn in Hd.
    destruct pre; [destruct m|]; discriminate. }
  rewrite (ai_move_text_reply _ _ _ _ _ _ _ Hb Hf Hu Hup Hok Hj Hr Hs).
  now rewrite (match0_first _ _ _ Hm Hd Hfirst).
Qed.

Lemma extracted_move_is_returned_witness :
  ai_move Sample.environment
    (Sample.replying (Sample.completion (VStr (lit "e2e4"))))
    (Sample.request_body Sample.fen_start (VArr []))
  = ({| code := 200; sent := Json (VObj [(lit "move", VStr (lit "e2e4"))]) |},
     [completion_request Sample.environment
        (lit "FEN: Move history: []" ++ user_suffix)]).
Proof.
  apply (extracted_move_is_returned Sample.environment _
           (Sample.request_body Sample.fen_start (VArr []))
           (lit "FEN: Move history: []" ++ user_suffix)
           {| status := 200; statusText := lit "OK";
              text := Ok (stringify_subst (Sample.completion (VStr (lit "e2e4"))));
              json := Ok (Sample.completion (VStr (lit "e2e4"))) |}
           (Sample.completion (VStr (lit "e2e4"))) (lit "e2e4") [] (lit "e2e4"));
    try reflexivity.
  - exists []. repeat split; reflexivity.
  - intros pre' m' Hlt. cbn in Hlt. lia.
Defined.

(** X7.  The handler answers with status 200 exactly when the request passes
    validation, the prompt is built, and the upstream answers with a
    success status and a body whose content is a non-empty string; whether
    a move is found in that string plays no part. *)
Theorem status_200_iff_text_reply (e : env) (up : upstream) (req_body : value) :
  code (fst (ai_move e up req_body)) = 200%Z
  <-> exists user_text r j s,
        is_nullish req_body = false
        /\ truthy (prop req_body (lit "fen")) = true
        /\ user (prop req_body (lit "fen")) (prop req_body (lit "history"))
           = Ok user_text
        /\ up (completion_request e user_text) = Ok r
        /\ ok r = true
        /\ json r = Ok j
        /\ reply_of j = Ok (VStr s)
        /\ s <> [].
Proof.
  split.
  - destruct (is_nullish req_body) eqn:Hb.
    { handler_unfold. unfold destructure_body. rewrite Hb. discriminate. }
    destruct (truthy (prop req_body (lit "fen"))) eqn:Hf.
    2:{ rewrite (falsy_fen_is_rejected _ _ _ Hb Hf). discriminate. }
    handler_unfold. rewrite (destructure_body_ok _ Hb). cbn [fst snd].
    rewrite Hf. cbn [negb].
    destruct (user (prop req_body (lit "fen")) (prop req_body (lit "history")))
      as [user_text|err] eqn:Hu; [|discriminate].
    cbn [app].
    destruct (up (completion_request e user_text)) as [r|err] eqn:Hup;
      [|discriminate].
    destruct (ok r) eqn:Hok; cbn [negb]; [|destruct (text r); discriminate].
    destruct (json r) as [j|err] eqn:Hj; [|discriminate].
    destruct (reply_of j) as [reply|err] eqn:Hr; [|discriminate].
    destruct (truthy reply) eqn:Ht; cbn [negb]; [|discriminate].
    destruct reply as [| |b|n|s|elems|props]; try discriminate.
    intros _. exists user_text, r, j, s. repeat split; trivial.
    intros ->. discriminate Ht.
  - intros (user_text & r & j & s & Hb & Hf & Hu & Hup & Hok & Hj & Hr & Hs).
    rewrite (ai_move_text_reply _ _ _ _ _ _ _ Hb Hf Hu Hup Hok Hj Hr Hs).
    reflexivity.
Qed.

(** X8.  The content is read from the first choice alone: the other choices,
    and the other fields of the body, play no part. *)
Theorem reply_is_first_choice (props cprops mprops : list (jsstring * value))
    (rest : list value) :
  lookup (lit "choices") props = VArr (VObj cprops :: rest) ->
  lookup (lit "message") cprops = VObj mprops ->
  reply_of (VObj props) = Ok (lookup (lit "content") mprops).
Proof.
  intros Hc Hm. unfold reply_of, and_then. cbn [get rbind]. rewrite Hc.
  cbn [truthy get0 get rbind]. rewrite Hm. reflexivity.
Qed.

Lemma reply_is_first_choice_witness :
  reply_of (VObj [(lit "choices",
                   VArr [VObj [(lit "message", VObj [(lit "content", VStr (lit "e2e4"))])];
                         VObj [(lit "message", VObj [(lit "content", VStr (lit "d2d4"))])]])])
  = Ok (lookup (lit "content") [(lit "content", VStr (lit "e2e4"))]).
Proof.
  apply (reply_is_first_choice _
           [(lit "message", VObj [(lit "content", VStr (lit "e2e4"))])]
           [(lit "content", VStr (lit "e2e4"))]
           [VObj [(lit "message", VObj [(lit "content", VStr (lit "d2d4"))])]]);
    reflexivity.
Defined.

(** ** The position is not used *)

(** X9.  Two requests with the same history and any two truthy positions are
    served alike: same response, same outbound call. *)
Theorem response_ignores_fen (e : env) (up : upstream) (body1 body2 : value) :
  is_nullish body1 = false ->
  is_nullish body2 = false ->
  truthy (prop body1 (lit "fen")) = true ->
  truthy (prop body2 (lit "fen")) = true ->
  prop body1 (lit "history") = prop body2 (lit "history") ->
  ai_move e up body1 = ai_move e up body2.
Proof.
  intros Hb1 Hb2 Hf1 Hf2 Hh. handler_unfold.
  rewrite (destructure_body_ok _ Hb1), (destructure_body_ok _ Hb2).
  cbn [fst snd]. rewrite Hf1, Hf2, Hh. reflexivity.
Qed.

Lemma response_ignores_fen_witness :
  ai_move Sample.environment
    (Sample.replying (Sample.completion (VStr (lit "e2e4"))))
    (Sample.request_body Sample.fen_start (VArr []))
  = ai_move Sample.environment
      (Sample.replying (Sample.completion (VStr (lit "e2e4"))))
      (Sample.request_body (lit "8/8/8/8/8/8/8/K6k w - - 0 1") (VArr [])).
Proof.
  apply response_ignores_fen; reflexivity.
Defined.

(** ** Trimming and matching *)

Lemma white_space_not_word (c : N) :
  is_white_space c = true -> is_word_char c = false.
Proof.
  unfold is_white_space, is_word_char. intros H.
  destruct ((97 <=? c) && (c <=? 122) || (65 <=? c) && (c <=? 90)
            || (48 <=? c) && (c <=? 57) || (c =? 95)) eqn:E; [|reflexivity].
  exfalso. bool_prop. lia.
Qed.

Lemma not_word_not_class (c : N) :
  is_word_char c = false ->
  is_file c = false /\ is_rank c = false /\ is_promotion c = false.
Proof.
  intros H. repeat split.
  - destruct (is_file c) eqn:E; [|reflexivity].
    apply is_file_word in E. congruence.
  - destruct (is_rank c) eqn:E; [|reflexivity].
    apply is_rank_word in E. congruence.
  - destruct (is_promotion c) eqn:E; [|reflexivity].
    apply is_promotion_word in E. congruence.
Qed.

Lemma token_end_succ (before : bool) (rest : jsstring) (i : nat) :
  token_end before rest (S i) = option_map S (token_end before rest i).
Proof.
  unfold token_end.
  destruct rest as [|f1 [|r1 [|f2 [|r2 tail]]]]; try reflexivity.
  destruct (negb before && is_file f1 && is_rank r1 && is_file f2 && is_rank r2);
    [|reflexivity].
  destruct tail as [|p [|c tl]]; cbn [option_map Nat.add];
    repeat match goal with
    | |- context [if ?b then _ else _] => destruct b
    end; reflexivity.
Qed.

Lemma word_before_cons (c : N) (s : jsstring) (i : nat) :
  is_word_char c = false ->
  word_before (c :: s) (S i) = word_before s i.
Proof.
  intros H. destruct i as [|i]; cbn [word_before]; unfold word_at; cbn [nth_error].
  - exact H.
  - reflexivity.
Qed.

Lemma exec_from_cons (c : N) (s : jsstring) (t i : nat) :
  is_word_char c = false ->
  exec_from moveMatcher (c :: s) t (S i)
  = option_map (fun ie => (S (fst ie), S (snd ie))) (exec_from moveMatcher s t i).
Proof.
  intros H. revert i. induction t as [|t IH]; intros i; [reflexivity|].
  cbn [exec_from]. cbn [ignoreCase moveMatcher]. fold moveMatcher.
  rewrite !matcher_at. rewrite (word_before_cons _ _ _ H). cbn [skipn].
  rewrite token_end_succ.
  destruct (token_end (word_before s i) (skipn i s) i) as [e|];
    cbn [option_map]; [reflexivity|]. apply IH.
Qed.

Lemma exec_from_S (r : regexp) (input : jsstring) (t i : nat) :
  exec_from r input (S t) i
  = match matcher (ignoreCase r) (source r) input i Some with
    | Some e => Some (i, e)
    | None => exec_from r input t (S i)
    end.
Proof. reflexivity. Qed.

Lemma match0_cons (c : N) (s : jsstring) :
  is_word_char c = false ->
  match0 (c :: s) moveMatcher = match0 s moveMatcher.
Proof.
  intros H. unfold match0, exec. cbn [List.length].
  rewrite exec_from_S. change (ignoreCase moveMatcher) with true.
  rewrite (matcher_at (c :: s) 0). cbn [word_before skipn].
  assert (E : token_end false (c :: s) 0 = None).
  { unfold token_end. destruct s as [|r1 [|f2 [|r2 tail]]]; try reflexivity.
    destruct (not_word_not_class _ H) as (-> & _). reflexivity. }
  rewrite E, (exec_from_cons _ _ _ _ H).
  destruct (exec_from moveMatcher s (S (List.length s)) 0) as [[i e]|];
    reflexivity.
Qed.

Lemma match0_trimStart (s : jsstring) :
  match0 (trimStart s) moveMatcher = match0 s moveMatcher.
Proof.
  induction s as [|c s IH]; [reflexivity|]. cbn [trimStart].
  destruct (is_white_space c) eqn:W; [|reflexivity].
  rewrite IH. symmetry. apply match0_cons, white_space_not_word, W.
Qed.

Lemma token_end_snoc (before : bool) (rest : jsstring) (c : N) (i : nat) :
  is_word_char c = false ->
  token_end before (rest ++ [c]) i = token_end before rest i.
Proof.
  intros H. destruct (not_word_not_class _ H) as (Hf & Hr & Hp).
  unfold token_end.
  destruct rest as [|f1 [|r1 [|f2 [|r2 [|p [|x tl]]]]]]; cbn [app];
    rewrite ?Hf, ?Hr, ?Hp, ?H, ?andb_false_r; try reflexivity.
  all: repeat match goal with
       | |- context [if ?b then _ else _] => destruct b
       end; reflexivity.
Qed.

Lemma word_before_snoc (s : jsstring) (c : N) (i : nat) :
  (i <= List.length s)%nat ->
  word_before (s ++ [c]) i = word_before s i.
Proof.
  intros Hi. destruct i as [|i]; [reflexivity|]. cbn [word_before].
  unfold word_at. now rewrite nth_error_app1 by lia.
Qed.

Lemma matcher_snoc (s : jsstring) (c : N) (i : nat) :
  is_word_char c = false ->
  matcher true (source moveMatcher) (s ++ [c]) i Some
  = if (i <=? List.length s)%nat
    then matcher true (source moveMatcher) s i Some
    else None.
Proof.
  intros H. rewrite !matcher_at.
  destruct (Nat.leb_spec i (List.length s)) as [Hi|Hi].
  - rewrite (word_before_snoc _ _ _ Hi), skipn_app.
    replace (i - List.length s)%nat with 0%nat by lia.
    cbn [skipn]. now apply token_end_snoc.
  - rewrite skipn_all2 by (rewrite length_app; cbn; lia). reflexivity.
Qed.

Lemma token_end_bound (s : jsstring) (i e : nat) :
  token_end (word_before s i) (skipn i s) i = Some e ->
  (i <= e <= List.length s)%nat.
Proof.
  intros H. apply token_end_delimited in H
    as (pre & m & Hl & -> & _ & post & -> & _).
  rewrite !length_app. lia.
Qed.

Lemma match0_snoc (s : jsstring) (c : N) :
  is_word_char c = false ->
  match0 (s ++ [c]) moveMatcher = match0 s moveMatcher.
Proof.
  intros H. unfold match0, exec.
  destruct (exec_from moveMatcher s (S (List.length s)) 0) as [[i e]|] eqn:E.
  - apply exec_from_some in E as (Hi & Hat & Hnone).
    cbn [ignoreCase moveMatcher] in Hat, Hnone. fold moveMatcher in Hat, Hnone.
    rewrite (exec_from_first moveMatcher (s ++ [c]) _ 0 i e).
    + pose proof Hat as Hb. rewrite matcher_at in Hb. apply token_end_bound in Hb.
      unfold substring. rewrite skipn_app.
      replace (i - List.length s)%nat with 0%nat by lia. cbn [skipn].
      rewrite firstn_app.
      replace (e - i - List.length (skipn i s))%nat with 0%nat
        by (rewrite length_skipn; lia).
      cbn [firstn]. now rewrite app_nil_r.
    + rewrite length_app. cbn. lia.
    + cbn [ignoreCase moveMatcher]. fold moveMatcher.
      rewrite (matcher_snoc _ _ _ H).
      destruct (Nat.leb_spec i (List.length s)); [exact Hat|lia].
    + intros j Hj. cbn [ignoreCase moveMatcher]. fold moveMatcher.
      rewrite (matcher_snoc _ _ _ H).
      destruct (Nat.leb_spec j (List.length s)); [|reflexivity].
      now apply Hnone.
  - rewrite exec_from_none in E.
    cbn [ignoreCase moveMatcher] in E. fold moveMatcher in E.
    assert (E' : exec_from moveMatcher (s ++ [c]) (S (List.length (s ++ [c]))) 0
                 = None).
    { apply exec_from_none. intros j Hj.
      cbn [ignoreCase moveMatcher]. fold moveMatcher.
      rewrite (matcher_snoc _ _ _ H).
      destruct (Nat.leb_spec j (List.length s)); [|reflexivity].
      apply E. lia. }
    now rewrite E'.
Qed.

Lemma match0_app_white (s w : jsstring) :
  Forall (fun c => is_white_space c = true) w ->
  match0 (s ++ w) moveMatcher = match0 s moveMatcher.
Proof.
  intros Hw. revert s. induction Hw as [|c w Hc _ IH]; intros s.
  - now rewrite app_nil_r.
  - change (c :: w) with ([c] ++ w). rewrite app_assoc, IH.
    apply match0_snoc, white_space_not_word, Hc.
Qed.

Lemma trimStart_white (s : jsstring) :
  exists w, Forall (fun c => is_white_space c = true) w /\ s = w ++ trimStart s.
Proof.
  induction s as [|c s (w & Hw & IH)].
  - exists []. split; [constructor|reflexivity].
  - cbn [trimStart]. destruct (is_white_space c) eqn:W.
    + exists (c :: w). split; [now constructor|]. cbn. now f_equal.
    + exists []. split; [constructor|reflexivity].
Qed.

Lemma match0_trimEnd (s : jsstring) :
  match0 (trimEnd s) moveMatcher = match0 s moveMatcher.
Proof.
  unfold trimEnd. destruct (trimStart_white (rev s)) as (w & Hw & Hs).
  assert (E : s = rev (trimStart (rev s)) ++ rev w).
  { rewrite <- rev_app_distr, <- Hs. symmetry. apply rev_involutive. }
  rewrite E at 2. symmetry. apply match0_app_white.
  now apply Forall_rev.
Qed.

(** X10.  White space around the reply never changes what is extracted: the
    match found in the trimmed reply is the match found in the reply as it
    came. *)
Theorem trim_does_not_change_extraction (s : jsstring) :
  match0 (trim s) moveMatcher = match0 s moveMatcher
  /\ extract_move (trim s) = extract_move s.
Proof.
  assert (H : match0 (trim s) moveMatcher = match0 s moveMatcher).
  { unfold trim. now rewrite match0_trimEnd, match0_trimStart. }
  split; [exact H|]. unfold extract_move. now rewrite H.
Qed.

Lemma match0_lone_token (m : jsstring) :
  is_move_token m = true -> match0 m moveMatcher = Some m.
Proof.
  intros Hm. apply (match0_first m [] m Hm).
  - exists []. rewrite app_nil_r. repeat split.
    unfold word_at. cbn [List.length Nat.add].
    now rewrite (proj2 (nth_error_None m (List.length m)) (Nat.le_refl _)).
  - intros pre' m' Hlt. cbn in Hlt. lia.
Qed.

(** X11.  Extraction is idempotent: a move that was extracted from a reply is
    extracted unchanged when it is the whole reply. *)
Theorem extraction_is_idempotent (reply m : jsstring) :
  extract_move (trim reply) = VStr m ->
  extract_move (trim m) = VStr m.
Proof.
  intros H. apply extract_move_string, match0_token in H as (Hm & Hr & _).
  unfold extract_move, trim.
  now rewrite match0_trimEnd, match0_trimStart, (match0_lone_token _ Hm), Hr.
Qed.

Lemma extraction_is_idempotent_witness :
  extract_move (trim (lit "e7e8Q")) = VStr (lit "e7e8Q").
Proof.
  apply (extraction_is_idempotent (lit " I play e7e8Q. ") (lit "e7e8Q")).
  reflexivity.
Defined.

(** ** Histories that are not lists of pairs *)

Lemma map_indexed_nullish (elems : list value) (elem : value) (i : nat) :
  In elem elems -> is_nullish elem = true ->
  exists err, map_indexed history_entry elems i = Throw err.
Proof.
  intros Hin Hn. revert i. induction elems as [|x elems IH]; intros i;
    [destruct Hin|].
  cbn [map_indexed]. destruct (history_entry x i) as [y|err] eqn:E;
    [|now exists err].
  destruct Hin as [->|Hin].
  - unfold history_entry in E. rewrite Hn in E. discriminate E.
  - destruct (IH Hin (S i)) as (err & ->). now exists err.
Qed.

(** X12.  A [null] among the history entries cannot be destructured: the handler
    answers with status 500 and does not call the upstream. *)
Theorem nullish_history_entry_is_500 (e : env) (up : upstream)
    (req_body : value) (elems : list value) (elem : value) :
  is_nullish req_body = false ->
  truthy (prop req_body (lit "fen")) = true ->
  prop req_body (lit "history") = VArr elems ->
  In elem elems ->
  is_nullish elem = true ->
  exists msg, ai_move e up req_body = (send 500 msg, []).
Proof.
  intros Hb Hf Hh Hin Hn. handler_unfold.
  rewrite (destructure_body_ok _ Hb). cbn [fst snd]. rewrite Hf. cbn [negb].
  unfold user. rewrite Hh. cbn [history_map].
  destruct (map_indexed_nullish _ _ 0 Hin Hn) as (err & ->).
  now exists (message err).
Qed.

Lemma nullish_history_entry_is_500_witness :
  exists msg,
    ai_move Sample.environment
      (Sample.replying (Sample.completion (VStr (lit "e2e4"))))
      (Sample.request_body Sample.fen_start
         (VArr [Sample.pair (lit "e2") (lit "e4"); VNull]))
    = (send 500 msg, []).
Proof.
  apply (nullish_history_entry_is_500 Sample.environment _ _
           [Sample.pair (lit "e2") (lit "e4"); VNull] VNull);
    try reflexivity.
  right. left. reflexivity.
Defined.

Lemma ToString_primitive (v : value) :
  is_primitive v = true -> exists s, ToString v = Ok s.
Proof.
  destruct v as [| |[|]|n|s|elems|props]; try discriminate; intros _;
    eexists; reflexivity.
Qed.

Lemma map_indexed_primitive (elems : list value) :
  Forall (fun elem => is_nullish elem = false
            /\ is_primitive (prop elem (lit "from")) = true
            /\ is_primitive (prop elem (lit "to")) = true) elems ->
  forall i, exists entries,
    map_indexed history_entry elems i = Ok entries
    /\ List.length entries = List.length elems
    /\ forall k elem, nth_error elems k = Some elem ->
         prop elem (lit "from") = VUndefined ->
         prop elem (lit "to") = VUndefined ->
         nth_error entries k
         = Some (of_nat (i + k + 1) ++ lit ". undefined-undefined").
Proof.
  induction 1 as [|x elems (Hn & Hf & Ht) _ IH]; intros i.
  - exists []. repeat split. intros [|k] ? H; discriminate H.
  - destruct (IH (S i)) as (entries & Hm & Hl & Hk).
    destruct (ToString_primitive _ Hf) as (sf & Hsf).
    destruct (ToString_primitive _ Ht) as (st & Hst).
    exists ((of_nat (i + 1) ++ lit ". " ++ sf ++ lit "-" ++ st) :: entries).
    cbn [map_indexed]. unfold history_entry at 1.
    rewrite Hn, Hsf, Hst. cbn [rbind]. rewrite Hm. cbn [rbind List.length].
    repeat split; [now rewrite Hl|].
    intros [|k] elem Hk' Hfu Htu; cbn [nth_error] in *.
    + injection Hk' as <-. rewrite Hfu in Hsf. rewrite Htu in Hst.
      injection Hsf as <-. injection Hst as <-.
      now rewrite Nat.add_0_r.
    + rewrite (Hk _ _ Hk' Hfu Htu). do 3 f_equal. lia.
Qed.

(** X13.  The entries of the history are not validated: any entry that is not
    [null] and whose [from] and [to] are absent or primitive is rendered
    through ToString, an absent field as the text [undefined], and the
    enumeration still has one entry per element. *)
Theorem history_fields_are_not_validated (elems : list value) :
  Forall (fun elem => is_nullish elem = false
            /\ is_primitive (prop elem (lit "from")) = true
            /\ is_primitive (prop elem (lit "to")) = true) elems ->
  exists entries,
    history_map (VArr elems) = Ok entries
    /\ List.length entries = List.length elems
    /\ forall i elem, nth_error elems i = Some elem ->
         prop elem (lit "from") = VUndefined ->
         prop elem (lit "to") = VUndefined ->
         nth_error entries i
         = Some (of_nat (i + 1) ++ lit ". undefined-undefined").
Proof.
  intros H. destruct (map_indexed_primitive _ H 0) as (entries & Hm & Hl & Hk).
  exists entries. repeat split; trivial.
Qed.

Lemma history_fields_are_not_validated_witness :
  exists entries,
    history_map (VArr [VObj []; VStr (lit "e2e4"); VNum 7]) = Ok entries
    /\ List.length entries = 3%nat
    /\ forall i elem,
         nth_error [VObj []; VStr (lit "e2e4"); VNum 7] i = Some elem ->
         prop elem (lit "from") = VUndefined ->
         prop elem (lit "to") = VUndefined ->
         nth_error entries i
         = Some (of_nat (i + 1) ++ lit ". undefined-undefined").
Proof.
  apply (history_fields_are_not_validated
           [VObj []; VStr (lit "e2e4"); VNum 7]).
  repeat constructor.
Defined.

(** ** The shape of the user instruction *)

Lemma hex_digit_printable (n : N) : 32 <= hex_digit n.
Proof. unfold hex_digit. destruct (n <? 10); lia. Qed.

Lemma unicode_escape_printable (c : N) :
  Forall (fun d => 32 <= d) (unicode_escape c).
Proof.
  unfold unicode_escape.
  repeat constructor; try apply hex_digit_printable; lia.
Qed.

Lemma quote_char_printable (c : N) : Forall (fun d => 32 <= d) (quote_char c).
Proof.
  unfold quote_char.
  repeat match goal with
  | |- context [if ?b then _ else _] => destruct b eqn:?
  end; try apply unicode_escape_printable; repeat constructor; try lia.
  bool_prop. lia.
Qed.

Lemma quote_body_printable (s : jsstring) :
  Forall (fun d => 32 <= d) (quote_body s).
Proof.
  assert (H : forall n s, (List.length s <= n)%nat ->
                Forall (fun d => 32 <= d) (quote_body s)).
  { induction n as [|n IH]; intros [|c t] Hl; cbn [List.length] in Hl;
      try (constructor; fail); try lia.
    cbn [quote_body].
    destruct (is_high_surrogate c) eqn:Hh.
    - unfold is_high_surrogate in Hh.
      destruct t as [|d t']; [apply unicode_escape_printable|].
      destruct (is_low_surrogate d) eqn:Hd.
      + unfold is_low_surrogate in Hd. bool_prop.
        constructor; [lia|]. constructor; [lia|].
        apply IH. cbn [List.length] in Hl. lia.
      + apply Forall_app. split; [apply unicode_escape_printable|].
        apply IH. lia.
    - destruct (is_low_surrogate c).
      + apply Forall_app. split; [apply unicode_escape_printable|].
        apply IH. lia.
      + apply Forall_app. split; [apply quote_char_printable|].
        apply IH. lia. }
  exact (H (List.length s) s (Nat.le_refl _)).
Qed.

Lemma join_printable (sep : jsstring) (l : list jsstring) :
  Forall (fun d => 32 <= d) sep ->
  Forall (Forall (fun d => 32 <= d)) l ->
  Forall (fun d => 32 <= d) (join sep l).
Proof.
  intros Hsep. induction 1 as [|x l Hx Hl IH]; [constructor|].
  cbn [join]. destruct l as [|y l]; [exact Hx|].
  apply Forall_app. split; [exact Hx|].
  apply Forall_app. split; [exact Hsep|exact IH].
Qed.

Lemma printable_no_line_feed (s : jsstring) :
  Forall (fun d => 32 <= d) s -> count_occ N.eq_dec s 10 = 0%nat.
Proof.
  intros H. apply count_occ_not_In. intros Hin.
  rewrite Forall_forall in H. specialize (H _ Hin). lia.
Qed.

(** X14.  Whatever the history holds, the user instruction keeps its shape: the
    fixed header, the serialized enumeration, in which no code unit is
    below U+0020 (a line feed, carriage return or tab of [from] or [to] is
    written as its escape), and the fixed last line; so it has exactly one
    line feed, the one before ["Respond with one UCI move only."]. *)
Theorem user_is_two_lines (fen history : value) (user_text : jsstring) :
  user fen history = Ok user_text ->
  (exists enumeration,
     user_text = user_prefix ++ enumeration ++ user_suffix
     /\ Forall (fun c => 32 <= c) enumeration)
  /\ count_occ N.eq_dec user_text 10 = 1%nat.
Proof.
  unfold user. destruct (history_map history) as [entries|err];
    [|discriminate].
  cbn [rbind]. intros H.
  assert (E : user_text = user_prefix
                ++ stringify_subst (VArr (map VStr entries)) ++ user_suffix)
    by congruence.
  clear H. subst user_text.
  assert (Hp : Forall (fun c => 32 <= c)
                 (stringify_subst (VArr (map VStr entries)))).
  { rewrite stringify_strings. apply Forall_app. split.
    - repeat constructor. vm_compute. discriminate.
    - apply Forall_app. split.
      + apply join_printable.
        * repeat constructor. vm_compute. discriminate.
        * apply Forall_forall. intros q Hq. apply in_map_iff in Hq as (x & <- & _).
          unfold QuoteJSONString. apply Forall_app. split.
          { repeat constructor. lia. }
          apply Forall_app. split; [apply quote_body_printable|].
          repeat constructor. lia.
      + repeat constructor. vm_compute. discriminate. }
  split.
  - eexists. split; [reflexivity|exact Hp].
  - rewrite !count_occ_app, (printable_no_line_feed _ Hp). reflexivity.
Qed.

Lemma user_is_two_lines_witness :
  (exists enumeration,
     lit "FEN: Move history: [" ++ [34] ++ lit "1. e2" ++ [92; 110] ++ lit "-e4"
       ++ [34] ++ lit "]" ++ user_suffix
     = user_prefix ++ enumeration ++ user_suffix
     /\ Forall (fun c => 32 <= c) enumeration)
  /\ count_occ N.eq_dec
       (lit "FEN: Move history: [" ++ [34] ++ lit "1. e2" ++ [92; 110] ++ lit "-e4"
          ++ [34] ++ lit "]" ++ user_suffix) 10 = 1%nat.
Proof.
  apply (user_is_two_lines (VStr Sample.fen_start)
           (VArr [Sample.pair (lit "e2" ++ [10]) (lit "e4")])).
  reflexivity.
Defined.

(** ** A missing credential *)

(** X15.  Without [OPENAI_API_KEY] the module warns once when it is loaded and
    serves requests all the same: a valid request is sent upstream with
    the header [Authorization: Bearer undefined]. *)
Theorem missing_key_warns_and_still_calls (e : env) (up : upstream)
    (req_body : value) (user_text : jsstring) :
  OPENAI_API_KEY e = None ->
  is_nullish req_body = false ->
  truthy (prop req_body (lit "fen")) = true ->
  user (prop req_body (lit "fen")) (prop req_body (lit "history")) = Ok user_text ->
  List.length (startup_warnings e) = 1%nat
  /\ exists rq,
       snd (ai_move e up req_body) = [rq]
       /\ url rq = lit "https://api.openai.com/v1/chat/completions"
       /\ In (lit "Authorization", lit "Bearer undefined") (headers rq).
Proof.
  intros Hk Hb Hf Hu. split.
  - unfold startup_warnings. now rewrite Hk.
  - exists (completion_request e user_text).
    rewrite (ai_move_reaches_upstream _ _ _ _ Hb Hf Hu).
    split; [reflexivity|]. split; [reflexivity|].
    cbn [completion_request headers]. unfold authorization. rewrite Hk.
    right. left. reflexivity.
Qed.

Lemma missing_key_warns_and_still_calls_witness :
  List.length (startup_warnings {| OPENAI_API_KEY := None; GPT_MODEL := None |})
  = 1%nat
  /\ exists rq,
       snd (ai_move {| OPENAI_API_KEY := None; GPT_MODEL := None |}
              (Sample.replying (Sample.completion (VStr (lit "e2e4"))))
              (Sample.request_body Sample.fen_start (VArr [])))
       = [rq]
       /\ url rq = lit "https://api.openai.com/v1/chat/completions"
       /\ In (lit "Authorization", lit "Bearer undefined") (headers rq).
Proof.
  apply (missing_key_warns_and_still_calls
           {| OPENAI_API_KEY := None; GPT_MODEL := None |} _ _
           (lit "FEN: Move history: []" ++ user_suffix)); reflexivity.
Defined.

(** ** The model named in the call *)

(** X16.  With [GPT_MODEL] unset or empty the call names the model
    [gpt-4o-mini]: its body starts with [{"model":"gpt-4o-mini",]. *)
Theorem empty_model_falls_back (e : env) (user_text : jsstring) :
  GPT_MODEL e = None \/ GPT_MODEL e = Some [] ->
  model e = lit "gpt-4o-mini"
  /\ exists rest,
       body (completion_request e user_text)
       = Some (lit "{" ++ [34] ++ lit "model" ++ [34] ++ lit ":" ++ [34]
               ++ lit "gpt-4o-mini" ++ [34] ++ lit "," ++ rest).
Proof.
  intros H.
  assert (Hm : model e = lit "gpt-4o-mini").
  { unfold model. destruct H as [-> | ->]; reflexivity. }
  split; [exact Hm|].
  unfold completion_request. cbn [body JSON_stringify flat_map snd fst app].
  rewrite Hm. eexists. reflexivity.
Qed.

Lemma empty_model_falls_back_witness :
  model {| OPENAI_API_KEY := Some (lit "sk-test"); GPT_MODEL := Some [] |}
  = lit "gpt-4o-mini"
  /\ exists rest,
       body (completion_request
               {| OPENAI_API_KEY := Some (lit "sk-test"); GPT_MODEL := Some [] |}
               (lit "FEN: Move history: []" ++ user_suffix))
       = Some (lit "{" ++ [34] ++ lit "model" ++ [34] ++ lit ":" ++ [34]
               ++ lit "gpt-4o-mini" ++ [34] ++ lit "," ++ rest).
Proof.
  apply empty_model_falls_back. right. reflexivity.
Defined.

(** ** Replies without a move *)

Lemma token_has_rank (m : jsstring) :
  is_move_token m = true -> exists c, In c m /\ is_rank c = true.
Proof.
  destruct m as [|f1 [|r1 [|f2 [|r2 [|p [|x m]]]]]]; try discriminate;
    cbn [is_move_token]; rewrite !andb_true_iff; intros H;
    exists r1; (split; [right; left; reflexivity|tauto]).
Qed.

(** X17.  A reply in which no digit from [1] to [8] occurs holds no move, whatever
    else it says: so the sentinel [PASS] that the system instruction asks
    for is answered as [{ move: null, raw }]. *)
Theorem reply_without_rank_has_no_move (s : jsstring) :
  Forall (fun c => is_rank c = false) s ->
  extract_move (trim s) = VNull.
Proof.
  intros H. unfold extract_move. rewrite no_segment_no_match; [reflexivity|].
  intros pre m post ->. destruct (is_move_token m) eqn:Hm; [|reflexivity].
  destruct (token_has_rank _ Hm) as (c & Hin & Hr).
  rewrite Forall_forall in H.
  rewrite (H c) in Hr; [discriminate Hr|].
  apply in_or_app. right. apply in_or_app. now left.
Qed.

Lemma reply_without_rank_has_no_move_witness :
  extract_move (trim (lit "PASS")) = VNull.
Proof.
  apply reply_without_rank_has_no_move. repeat constructor.
Defined.
